(** * OLT manager: scheduler, threshold/alarm engine and SNMP adapter

    A shallow embedding of the device-monitoring core of the OLT manager
    backend:

    - [backend/services/monitoring_service.py]: [MonitoringTask], the
      scheduler loop, the task table and its statistics, the threshold
      check and the threshold alarm writer;
    - [backend/models/alarm.py] and [backend/models/performance_data.py]:
      the names the two classes declare, [MetricType], [Alarm.escalate],
      [Alarm.acknowledge] and [Alarm.clear];
    - [backend/services/snmp_service.py]: [get], [get_bulk], [walk],
      [get_port_info], [get_ont_info] and the discoveries.

    Python [int] is [Z], Python [float] is the kernel's binary64 float,
    [dict] is [gmap], [datetime] is a number of microseconds; an exception
    is [None], or an outcome of its own where the state it leaves
    matters. *)

From Stdlib Require Import ZArith List Ascii String Bool Lia.
From Stdlib Require Import Floats.PrimFloat Floats.SpecFloat Floats.FloatOps.
From stdpp Require Import base option list gmap strings pretty.

Local Open Scope Z_scope.

(** ** The scheduler: [MonitoringTask] and [_monitoring_loop] *)

Module Scheduler.

Inductive MonitoringTaskType :=
| DEVICE_DISCOVERY
| PERFORMANCE_COLLECTION
| HEALTH_CHECK
| ALARM_MONITORING
| THRESHOLD_CHECK.

(** A [datetime] is the number of microseconds since the epoch, so that
    [timedelta(seconds=n)] is [n * 10^6]. *)
Definition datetime := Z.

Definition timedelta_seconds (n : Z) : Z := n * 1000000.

(** The optional callback of a task is awaited with the success flag; all
    the scheduler observes of it is whether awaiting it raises. *)
Definition Callback := bool -> bool.

(** Values of the [parameters] dict of the default tasks. *)
Inductive param_value :=
| PBool (b : bool)
| PStr (s : string).

(** The dataclass after [__init__]/[__post_init__]: [next_run] is never
    [None] from then on, see [new_task]. *)
Record MonitoringTask := mkTask {
  task_id : string;
  task_type : MonitoringTaskType;
  target_device_id : option string;
  target_device_type : option string;
  interval_seconds : Z;
  enabled : bool;
  last_run : option datetime;
  next_run : datetime;
  error_count : Z;
  max_errors : Z;
  callback : option Callback;
  parameters : gmap string param_value
}.

(** The keyword arguments of the constructor that have a default; the
    defaults are those of the dataclass. *)
Record task_args := mkArgs {
  a_target_device_id : option string;
  a_target_device_type : option string;
  a_interval_seconds : Z;
  a_enabled : bool;
  a_last_run : option datetime;
  a_next_run : option datetime;
  a_error_count : Z;
  a_max_errors : Z;
  a_callback : option Callback;
  a_parameters : gmap string param_value
}.

Definition default_args : task_args :=
  {| a_target_device_id := None;
     a_target_device_type := None;
     a_interval_seconds := 300;
     a_enabled := true;
     a_last_run := None;
     a_next_run := None;
     a_error_count := 0;
     a_max_errors := 5;
     a_callback := None;
     a_parameters := ∅ |}.

(** [MonitoringTask(...)]: the generated [__init__] followed by
    [__post_init__], which reads the clock ([utcnow]) when no [next_run]
    was given. *)
Definition new_task (utcnow : datetime) (id : string)
    (ty : MonitoringTaskType) (a : task_args) : MonitoringTask :=
  {| task_id := id;
     task_type := ty;
     target_device_id := a_target_device_id a;
     target_device_type := a_target_device_type a;
     interval_seconds := a_interval_seconds a;
     enabled := a_enabled a;
     last_run := a_last_run a;
     next_run := match a_next_run a with
                 | None => utcnow
                 | Some t => t
                 end;
     error_count := a_error_count a;
     max_errors := a_max_errors a;
     callback := a_callback a;
     parameters := a_parameters a |}.

(** [is_due]: [self.enabled and self.next_run <= datetime.utcnow()]. *)
Definition is_due (utcnow : datetime) (t : MonitoringTask) : bool :=
  enabled t && (next_run t <=? utcnow).

(** [is_healthy]: [self.error_count < self.max_errors]. *)
Definition is_healthy (t : MonitoringTask) : bool :=
  error_count t <? max_errors t.

Definition set_next_run (v : datetime) (t : MonitoringTask) : MonitoringTask :=
  mkTask (task_id t) (task_type t) (target_device_id t) (target_device_type t)
         (interval_seconds t) (enabled t) (last_run t) v
         (error_count t) (max_errors t) (callback t) (parameters t).

Definition set_last_run (v : option datetime) (t : MonitoringTask) : MonitoringTask :=
  mkTask (task_id t) (task_type t) (target_device_id t) (target_device_type t)
         (interval_seconds t) (enabled t) v (next_run t)
         (error_count t) (max_errors t) (callback t) (parameters t).

Definition set_error_count (v : Z) (t : MonitoringTask) : MonitoringTask :=
  mkTask (task_id t) (task_type t) (target_device_id t) (target_device_type t)
         (interval_seconds t) (enabled t) (last_run t) (next_run t)
         v (max_errors t) (callback t) (parameters t).

Definition set_enabled (v : bool) (t : MonitoringTask) : MonitoringTask :=
  mkTask (task_id t) (task_type t) (target_device_id t) (target_device_type t)
         (interval_seconds t) v (last_run t) (next_run t)
         (error_count t) (max_errors t) (callback t) (parameters t).

(** The range of [datetime]: [datetime.min] is 0001-01-01 00:00:00 and
    [datetime.max] is 9999-12-31 23:59:59.999999, in microseconds since
    the epoch. *)
Definition datetime_min : Z := -62135596800000000.
Definition datetime_max : Z := 253402300799999999.

(** Whether [utcnow + timedelta(seconds=n)] is a value: [timedelta]
    takes at most 999999999 whole days, in either direction, and the sum
    has to be a [datetime]. Python raises [OverflowError] otherwise. *)
Definition representable (utcnow : datetime) (n : Z) : bool :=
  (Z.abs (n / 86400) <=? 999999999)
  && (datetime_min <=? utcnow + timedelta_seconds n)
  && (utcnow + timedelta_seconds n <=? datetime_max).

(** How a method that reschedules ends: it returns, or it is left by the
    [OverflowError] of [schedule_next_run]; either way the task holds what
    was assigned before. *)
Inductive Outcome :=
| Returns (t : MonitoringTask)
| Overflows (t : MonitoringTask).

Definition task_of (o : Outcome) : MonitoringTask :=
  match o with
  | Returns t => t
  | Overflows t => t
  end.

(** [schedule_next_run]: [next_run = utcnow() + timedelta(seconds=interval)];
    when the right-hand side raises, nothing is assigned. *)
Definition schedule_next_run (utcnow : datetime) (t : MonitoringTask) : Outcome :=
  if representable utcnow (interval_seconds t)
  then Returns (set_next_run (utcnow + timedelta_seconds (interval_seconds t)) t)
  else Overflows t.

(** [mark_success] reads the clock twice: once for [last_run], once inside
    [schedule_next_run], which comes last. *)
Definition mark_success (now_last now_sched : datetime) (t : MonitoringTask)
    : Outcome :=
  schedule_next_run now_sched (set_error_count 0 (set_last_run (Some now_last) t)).

(** [mark_error]: the counter goes up by one; at [max_errors] the task is
    disabled and not rescheduled, below it the task is rescheduled. *)
Definition mark_error (utcnow : datetime) (t : MonitoringTask) : Outcome :=
  let t1 := set_error_count (error_count t + 1) t in
  if max_errors t1 <=? error_count t1
  then Returns (set_enabled false t1)
  else schedule_next_run utcnow t1.

(** What one execution of a task meets: whether the task body raises, and
    the clock readings of the calls it may make. *)
Record Exec := mkExec {
  body_raises : bool;
  now_last_run : datetime;
  now_schedule : datetime;
  now_error : datetime
}.

(** [_execute_task]: the task as the execution leaves it. The body runs
    inside [try]; on return the task is marked successful and the callback
    awaited with [success=True], still inside the [try], so an
    [OverflowError] of [mark_success] and a callback that raises both land
    in the handler. The handler marks the error and, when that returns,
    awaits the callback again; whatever leaves the handler is kept by
    [asyncio.gather(..., return_exceptions=True)] and the task stays as the
    handler left it. *)
Definition _execute_task (e : Exec) (t : MonitoringTask) : MonitoringTask :=
  if body_raises e then task_of (mark_error (now_error e) t)
  else
    match mark_success (now_last_run e) (now_schedule e) t with
    | Overflows t1 => task_of (mark_error (now_error e) t1)
    | Returns t1 =>
        match callback t1 with
        | Some cb => if cb true then task_of (mark_error (now_error e) t1) else t1
        | None => t1
        end
    end.

(** One pass of the [while self.running] loop: the clock reading taken by
    [is_due] for the task stored under each key, and what each execution
    meets. *)
Record Iteration := mkIter {
  due_clock : string -> datetime;
  exec : string -> Exec
}.

(** [self.tasks]: the dict from task id to task object. *)
Abbreviation tasks_t := (gmap string MonitoringTask).

(** [add_task]: [self.tasks[task.task_id] = task]. *)
Definition add_task (t : MonitoringTask) (tasks : tasks_t) : tasks_t :=
  <[task_id t := t]> tasks.

Definition selected (it : Iteration) (kt : string * MonitoringTask) : bool :=
  is_due (due_clock it kt.1) kt.2 && is_healthy kt.2.

(** [due_tasks = [task for task in self.tasks.values()
                  if task.is_due and task.is_healthy]]; each task is kept
    with the key it is stored under. *)
Definition due_tasks (it : Iteration) (tasks : tasks_t)
    : list (string * MonitoringTask) :=
  List.filter (selected it) (map_to_list tasks).

(** [asyncio.gather] over the due tasks: each execution mutates its own
    task object, which the dict still holds under the same key. *)
Definition run_due (it : Iteration) (due : list (string * MonitoringTask))
    (tasks : tasks_t) : tasks_t :=
  foldl (fun acc kt => <[kt.1 := _execute_task (exec it kt.1) kt.2]> acc) tasks due.

Definition monitoring_iteration (it : Iteration) (tasks : tasks_t) : tasks_t :=
  run_due it (due_tasks it tasks) tasks.

(** A finite prefix of [_monitoring_loop]. *)
Definition _monitoring_loop (its : list Iteration) (tasks : tasks_t) : tasks_t :=
  foldl (fun acc it => monitoring_iteration it acc) tasks its.

(** [_initialize_default_tasks]; [c1 .. c4] are the clock readings of the
    four constructions. *)
Definition with_interval (n : Z) (ps : gmap string param_value) : task_args :=
  mkArgs None None n true None None 0 5 None ps.

Definition _initialize_default_tasks (c1 c2 c3 c4 : datetime) (tasks : tasks_t)
    : tasks_t :=
  let tasks := add_task (new_task c1 "global_device_discovery" DEVICE_DISCOVERY
                 (with_interval 600 {["discover_all" := PBool true]})) tasks in
  let tasks := add_task (new_task c2 "global_health_check" HEALTH_CHECK
                 (with_interval 300 {["check_all" := PBool true]})) tasks in
  let tasks := add_task (new_task c3 "global_threshold_check" THRESHOLD_CHECK
                 (with_interval 120 {["check_all" := PBool true]})) tasks in
  add_task (new_task c4 "global_alarm_monitoring" ALARM_MONITORING
                 (with_interval 60 {["monitor_all" := PBool true]})) tasks.

(** Failures in a row, each with its clock reading. *)
Definition mark_errors (nows : list datetime) (t : MonitoringTask) : MonitoringTask :=
  foldl (fun acc now => task_of (mark_error now acc)) t nows.

(** The callback of the task, if there is one, returns when it is awaited
    with [success=True]. *)
Definition callback_returns (t : MonitoringTask) : Prop :=
  match callback t with
  | Some cb => cb true = false
  | None => True
  end.

(** The ids of the tasks that [_initialize_default_tasks] adds. *)
Definition default_task_ids : list string :=
  [ "global_device_discovery"; "global_health_check";
    "global_threshold_check"; "global_alarm_monitoring" ]%string.

(** [remove_task]: the entry is deleted when the id is a key. *)
Definition remove_task (id : string) (tasks : tasks_t) : tasks_t :=
  if decide (is_Some (tasks !! id)) then delete id tasks else tasks.

(** [get_task]: [self.tasks.get(task_id)]. *)
Definition get_task (id : string) (tasks : tasks_t) : option MonitoringTask :=
  tasks !! id.

(** [list_tasks]: [list(self.tasks.values())]. *)
Definition list_tasks (tasks : tasks_t) : list MonitoringTask :=
  (map_to_list tasks).*2.

Global Instance MonitoringTaskType_eq_dec : EqDecision MonitoringTaskType.
Proof. solve_decision. Defined.

(** The dict returned by [get_service_stats]. *)
Record ServiceStats := mkStats {
  s_running : bool;
  s_total_tasks : nat;
  s_enabled_tasks : nat;
  s_healthy_tasks : nat;
  s_due_tasks : nat;
  s_snmp_connections : nat;
  s_task_types : list MonitoringTaskType
}.

(** [sum(1 for task in self.tasks.values() if cond(task))]; the condition
    may read the key the task is stored under, for its clock reading. *)
Definition count_tasks (cond : string * MonitoringTask -> bool) (tasks : tasks_t)
    : nat :=
  length (List.filter cond (map_to_list tasks)).

(** [get_service_stats]; [running] and [snmp_connections] are
    [self.running] and [len(self.snmp_services)], [clock k] the clock
    reading of [is_due] for the task stored under [k]. [task_types] is the
    list of a set: each type once. *)
Definition get_service_stats (running : bool) (snmp_connections : nat)
    (clock : string -> datetime) (tasks : tasks_t) : ServiceStats :=
  {| s_running := running;
     s_total_tasks := size tasks;
     s_enabled_tasks := count_tasks (fun kt => enabled kt.2) tasks;
     s_healthy_tasks := count_tasks (fun kt => is_healthy kt.2) tasks;
     s_due_tasks := count_tasks (fun kt => is_due (clock kt.1) kt.2) tasks;
     s_snmp_connections := snmp_connections;
     s_task_types := remove_dups ((fun kt => task_type kt.2) <$> map_to_list tasks) |}.

(** Executions of one task in a row. *)
Definition run_executions (es : list Exec) (t : MonitoringTask) : MonitoringTask :=
  foldl (fun acc e => _execute_task e acc) t es.

(** The attributes of a task that no execution writes. *)
Definition same_config (t t' : MonitoringTask) : Prop :=
  task_id t' = task_id t
  /\ task_type t' = task_type t
  /\ target_device_id t' = target_device_id t
  /\ target_device_type t' = target_device_type t
  /\ interval_seconds t' = interval_seconds t
  /\ max_errors t' = max_errors t
  /\ callback t' = callback t
  /\ parameters t' = parameters t.

End Scheduler.

(** ** Alarms: [backend/models/alarm.py] *)

Module AlarmModel.

Inductive AlarmSeverity := CRITICAL | MAJOR | MINOR | WARNING | INFO.

Inductive AlarmStatus := ACTIVE | ACKNOWLEDGED | CLEARED | SUPPRESSED.

Global Instance AlarmSeverity_eq_dec : EqDecision AlarmSeverity.
Proof. solve_decision. Defined.

Global Instance AlarmStatus_eq_dec : EqDecision AlarmStatus.
Proof. solve_decision. Defined.

(** The interpolated parts of the message
    [f"{metric} {threshold_type} threshold exceeded: {value} {unit}"]. *)
Record Message := mkMessage {
  m_metric : string;
  m_threshold_type : string;
  m_value : float;
  m_unit : string
}.

(** The [additional_data] dict of a threshold alarm. *)
Record AdditionalData := mkAdditional {
  ad_metric_type : string;
  ad_value : float;
  ad_threshold : float;
  ad_threshold_type : string;
  ad_unit : string
}.

(** An alarm row with the attributes that the model and the monitoring
    service name. [models/alarm.py] declares [alarm_type], [severity],
    [status] and [escalation_level]; [device_id], [device_type],
    [message], [timestamp] and [additional_data] are names of
    [monitoring_service.py] only, which a row has on a platform whose
    [Base] declares them (see [ThresholdEngine.Platform]). [alarm_type]
    is kept as the string that the writer compares and stores. *)
Record Alarm := mkAlarm {
  device_id : Z;
  device_type : string;
  alarm_type : string;
  severity : AlarmSeverity;
  status : AlarmStatus;
  message : Message;
  timestamp : Z;
  additional_data : AdditionalData;
  escalation_level : Z
}.

Definition set_severity (s : AlarmSeverity) (a : Alarm) : Alarm :=
  mkAlarm (device_id a) (device_type a) (alarm_type a) s (status a)
          (message a) (timestamp a) (additional_data a) (escalation_level a).

Definition set_message (m : Message) (a : Alarm) : Alarm :=
  mkAlarm (device_id a) (device_type a) (alarm_type a) (severity a) (status a)
          m (timestamp a) (additional_data a) (escalation_level a).

Definition set_timestamp (t : Z) (a : Alarm) : Alarm :=
  mkAlarm (device_id a) (device_type a) (alarm_type a) (severity a) (status a)
          (message a) t (additional_data a) (escalation_level a).

Definition set_escalation_level (n : Z) (a : Alarm) : Alarm :=
  mkAlarm (device_id a) (device_type a) (alarm_type a) (severity a) (status a)
          (message a) (timestamp a) (additional_data a) n.

Definition severity_order : list AlarmSeverity :=
  [INFO; WARNING; MINOR; MAJOR; CRITICAL].

(** [list.index]: the position of the first occurrence. Every severity
    occurs in [severity_order], so [ValueError] cannot be raised there. *)
Fixpoint index_of (s : AlarmSeverity) (l : list AlarmSeverity) : option nat :=
  match l with
  | [] => None
  | x :: l' => if decide (x = s) then Some O else S <$> index_of s l'
  end.

(** [Alarm.escalate]. *)
Definition escalate (a : Alarm) : Alarm :=
  let a1 := set_escalation_level (escalation_level a + 1) a in
  if decide (severity a1 = CRITICAL) then a1
  else
    match index_of (severity a1) severity_order with
    | Some current_index =>
        if (current_index <? length severity_order - 1)%nat
        then match severity_order !! (current_index + 1)%nat with
             | Some s => set_severity s a1
             | None => a1
             end
        else a1
    | None => a1
    end.

(** One step up the ladder, the top staying where it is. *)
Definition promoted (s : AlarmSeverity) : AlarmSeverity :=
  match s with
  | INFO => WARNING
  | WARNING => MINOR
  | MINOR => MAJOR
  | MAJOR => CRITICAL
  | CRITICAL => CRITICAL
  end.

(** *** The life cycle of an alarm *)

Definition set_status (s : AlarmStatus) (a : Alarm) : Alarm :=
  mkAlarm (device_id a) (device_type a) (alarm_type a) (severity a) s
          (message a) (timestamp a) (additional_data a) (escalation_level a).

(** An alarm with the columns that [acknowledge] and [clear] write. The
    two time columns hold [datetime.now().isoformat()]; they are kept as
    the clock readings they print. *)
Record AlarmState := mkState {
  core : Alarm;
  is_active : bool;
  is_acknowledged : bool;
  is_cleared : bool;
  acknowledged_by : option string;
  acknowledged_at : option Z;
  cleared_by : option string;
  cleared_at : option Z
}.

(** [Alarm.acknowledge]. *)
Definition acknowledge (username : string) (now : Z) (st : AlarmState)
    : AlarmState :=
  {| core := if decide (status (core st) = ACTIVE)
             then set_status ACKNOWLEDGED (core st) else core st;
     is_active := is_active st;
     is_acknowledged := true;
     is_cleared := is_cleared st;
     acknowledged_by := Some username;
     acknowledged_at := Some now;
     cleared_by := cleared_by st;
     cleared_at := cleared_at st |}.

(** [Alarm.clear]; [username] defaults to [None]. *)
Definition clear (username : option string) (now : Z) (st : AlarmState)
    : AlarmState :=
  {| core := set_status CLEARED (core st);
     is_active := false;
     is_acknowledged := is_acknowledged st;
     is_cleared := true;
     acknowledged_by := acknowledged_by st;
     acknowledged_at := acknowledged_at st;
     cleared_by := username;
     cleared_at := Some now |}.

(** [is_critical], [is_major] and [requires_immediate_attention]. *)
Definition is_critical (a : Alarm) : bool :=
  bool_decide (severity a = CRITICAL).

Definition is_major (a : Alarm) : bool :=
  bool_decide (severity a ∈ [CRITICAL; MAJOR]).

Definition requires_immediate_attention (st : AlarmState) : bool :=
  is_active st && negb (is_acknowledged st)
  && bool_decide (severity (core st) ∈ [CRITICAL; MAJOR]).

(** [severity_weight]; the default [0] of [weights.get] is for no member
    of the enum. *)
Definition severity_weight (a : Alarm) : Z :=
  match severity a with
  | CRITICAL => 5
  | MAJOR => 4
  | MINOR => 3
  | WARNING => 2
  | INFO => 1
  end.

End AlarmModel.

(** ** The threshold check and the threshold alarm writer *)

Module ThresholdEngine.
Import AlarmModel.

(** *** The mapped classes *)

(** [MetricType] of [models/performance_data.py]. *)
Inductive MetricType :=
| CPU_USAGE
| MEMORY_USAGE
| TEMPERATURE
| POWER_CONSUMPTION
| BANDWIDTH_UTILIZATION
| PACKET_LOSS
| LATENCY
| JITTER
| ERROR_RATE
| SIGNAL_STRENGTH
| UPTIME
| THROUGHPUT
| CONNECTION_COUNT
| DISK_USAGE
| NETWORK_UTILIZATION.

Global Instance MetricType_eq_dec : EqDecision MetricType.
Proof. solve_decision. Defined.

(** [member.value]. *)
Definition metric_value (m : MetricType) : string :=
  match m with
  | CPU_USAGE => "cpu_usage"
  | MEMORY_USAGE => "memory_usage"
  | TEMPERATURE => "temperature"
  | POWER_CONSUMPTION => "power_consumption"
  | BANDWIDTH_UTILIZATION => "bandwidth_utilization"
  | PACKET_LOSS => "packet_loss"
  | LATENCY => "latency"
  | JITTER => "jitter"
  | ERROR_RATE => "error_rate"
  | SIGNAL_STRENGTH => "signal_strength"
  | UPTIME => "uptime"
  | THROUGHPUT => "throughput"
  | CONNECTION_COUNT => "connection_count"
  | DISK_USAGE => "disk_usage"
  | NETWORK_UTILIZATION => "network_utilization"
  end.

(** The names that [class Alarm] declares in [models/alarm.py]: its
    columns, relationships, properties and methods. *)
Definition Alarm_declares : list string :=
  [ "__tablename__"; "alarm_id"; "sequence_number"; "alarm_type"; "severity"; "category";
    "title"; "description"; "details"; "olt_id"; "ont_id"; "port_id";
    "source_component"; "source_ip"; "status"; "is_active";
    "is_acknowledged"; "is_cleared"; "first_occurrence"; "last_occurrence";
    "acknowledged_at"; "cleared_at"; "acknowledged_by"; "cleared_by";
    "assigned_to"; "occurrence_count"; "escalation_level";
    "auto_clear_enabled"; "notification_sent"; "probable_cause";
    "recommended_action"; "impact_assessment"; "correlation_id";
    "parent_alarm_id"; "root_cause_alarm_id"; "ticket_number";
    "external_reference"; "is_suppressed"; "suppressed_until";
    "suppression_reason"; "olt"; "ont"; "__repr__"; "is_critical"; "is_major";
    "requires_immediate_attention"; "age_hours"; "severity_weight";
    "source_description"; "acknowledge"; "clear"; "escalate" ]%string.

(** The names that [class PerformanceData] declares in
    [models/performance_data.py]. *)
Definition PerformanceData_declares : list string :=
  [ "__tablename__"; "metric_name"; "metric_type"; "olt_id"; "ont_id"; "port_id";
    "data_source"; "source_component"; "collection_method"; "value"; "unit";
    "min_value"; "max_value"; "threshold_warning"; "threshold_critical";
    "is_valid"; "quality_score"; "confidence_level"; "aggregation_type";
    "aggregation_period"; "sample_count"; "timestamp"; "collection_time";
    "processing_time"; "tags"; "attributes"; "context"; "retention_period";
    "is_archived"; "archive_location"; "olt"; "__repr__";
    "is_threshold_exceeded";
    "is_critical_threshold_exceeded"; "threshold_status"; "formatted_value";
    "source_description"; "age_minutes"; "is_recent"; "is_stale";
    "calculate_percentage_of_range"; "get_trend_indicator";
    "to_metric_dict" ]%string.

(** What the pass takes from outside the sources: the columns that both
    classes inherit from [Base] ([models/base.py] is not among the
    sources), and whether the object that [get_db_session()] returns can
    be entered with [async with] (it is the [Session] of SQLAlchemy's
    [sessionmaker]). *)
Record Platform := mkPlatform {
  Base_declares : list string;
  async_session : bool
}.

(** [hasattr(Alarm, name)] and [hasattr(PerformanceData, name)]. Reading
    a name that the class does not have raises [AttributeError]. *)
Definition Alarm_has (p : Platform) (name : string) : bool :=
  bool_decide (name ∈ Alarm_declares ++ Base_declares p).

Definition PerformanceData_has (p : Platform) (name : string) : bool :=
  bool_decide (name ∈ PerformanceData_declares ++ Base_declares p).

(** *** Samples, thresholds and sessions *)

(** A [PerformanceData] row as the threshold check and the writer name its
    attributes: [pd_metric_type] is [data.metric_type.value], the value of
    a member of [MetricType] for a row of the table; [pd_device_id] and
    [pd_device_type] are what [data.device_id] and [data.device_type]
    yield on a platform where the class has them. *)
Record PerformanceData := mkData {
  pd_device_id : Z;
  pd_device_type : string;
  pd_metric_type : string;
  pd_value : float;
  pd_unit : string;
  pd_timestamp : Z
}.

(** [self.thresholds]: metric name to bound name to bound. *)
Abbreviation threshold_table := (gmap string (gmap string float)).

Definition bounds (warning critical : float) : gmap string float :=
  <["warning" := warning]> (<["critical" := critical]> ∅).

(** The table built by [MonitoringService.__init__]. The literals [0.1] and
    [0.2] are written in hexadecimal, as binary64 reads them. *)
Definition thresholds : threshold_table :=
  <["cpu_usage" := bounds 80 95]>
  (<["memory_usage" := bounds 85 95]>
  (<["temperature" := bounds 70 85]>
  (<["optical_power_rx" := bounds (-25) (-30)]>
  (<["optical_power_tx" := bounds (-3) (-5)]>
  (<["ont_offline_ratio" := bounds 0x1.999999999999ap-4 0x1.999999999999ap-3]>
   ∅))))).

(** The session of one pass: the [rows] of the alarms table as a query
    reads them, the [pending] objects given to [db.add], and the
    [autoflush] setting of the session. *)
Record Session := mkSession {
  rows : list Alarm;
  pending : list Alarm;
  autoflush : bool
}.

(** [flush]: the pending objects reach the table. *)
Definition flush (db : Session) : Session :=
  mkSession (rows db ++ pending db) [] (autoflush db).

(** What a query does before it reads the table: a session with
    [autoflush] flushes, one without does not, and its query does not see
    the pending objects. *)
Definition before_query (db : Session) : Session :=
  if autoflush db then flush db else db.

(** The session that [get_db_session()] makes: one of the factory of
    [database/connection.py], which is
    [sessionmaker(bind=engine, autocommit=False, autoflush=False,
    expire_on_commit=False)]. *)
Definition get_db_session (alarms : list Alarm) : Session :=
  mkSession alarms [] false.

(** *** The writer *)

(** The filter of the query in [_create_threshold_alarm]. *)
Definition same_alarm (data : PerformanceData) (a : Alarm) : Prop :=
  device_id a = pd_device_id data
  /\ device_type a = pd_device_type data
  /\ alarm_type a = String.append "threshold_" (pd_metric_type data)
  /\ status a = ACTIVE.

Global Instance same_alarm_dec data a : Decision (same_alarm data a).
Proof. unfold same_alarm. apply _. Defined.

Definition threshold_message (data : PerformanceData) (threshold_type : string)
    (value : float) : Message :=
  mkMessage (pd_metric_type data) threshold_type value (pd_unit data).

(** The attributes that the arguments of [filter] read, in the order
    Python evaluates them: [Alarm.device_id == data.device_id],
    [Alarm.device_type == data.device_type],
    [Alarm.alarm_type == f"threshold_{data.metric_type.value}"],
    [Alarm.status == AlarmStatus.ACTIVE]. *)
Definition filter_resolves (p : Platform) : bool :=
  Alarm_has p "device_id" && PerformanceData_has p "device_id"
  && Alarm_has p "device_type" && PerformanceData_has p "device_type"
  && Alarm_has p "alarm_type" && PerformanceData_has p "metric_type"
  && Alarm_has p "status".

(** The attributes that the f-string of the message reads. *)
Definition message_resolves (p : Platform) : bool :=
  PerformanceData_has p "metric_type" && PerformanceData_has p "unit".

(** [Alarm(device_id=..., ...)]: the constructor of a mapped class raises
    [TypeError] for a keyword that is not an attribute of the class. *)
Definition constructor_accepts (p : Platform) : bool :=
  forallb (Alarm_has p)
    [ "device_id"; "device_type"; "alarm_type"; "severity"; "status";
      "message"; "timestamp"; "additional_data" ]%string.

(** [existing_alarm.name = value]: an assignment to a name that is not a
    column of the class stays on the Python object and does not reach the
    table. *)
Definition assign (p : Platform) (name : string) (f : Alarm -> Alarm)
    (a : Alarm) : Alarm :=
  if Alarm_has p name then f a else a.

(** The row that the update branch leaves in place of [a]. *)
Definition updated (p : Platform) (utcnow : Z) (data : PerformanceData)
    (sev : AlarmSeverity) (threshold_type : string) (value : float) (a : Alarm)
    : Alarm :=
  assign p "timestamp" (set_timestamp utcnow)
    (assign p "message" (set_message (threshold_message data threshold_type value))
       (assign p "severity" (set_severity sev) a)).

(** The alarm that the create branch hands to [db.add]; [escalation_level]
    takes the default of its column. *)
Definition created (utcnow : Z) (data : PerformanceData) (sev : AlarmSeverity)
    (threshold_type : string) (value threshold : float) : Alarm :=
  mkAlarm (pd_device_id data) (pd_device_type data)
          (String.append "threshold_" (pd_metric_type data)) sev ACTIVE
          (threshold_message data threshold_type value) utcnow
          (mkAdditional (pd_metric_type data) value threshold threshold_type
                        (pd_unit data)) 0.

(** [_create_threshold_alarm]; [utcnow] is the clock reading of the branch
    taken, [None] the exception that leaves the call: the
    [AttributeError] of a name that a class does not have, or the
    [TypeError] of the constructor. *)
Definition _create_threshold_alarm (p : Platform) (utcnow : Z) (db : Session)
    (data : PerformanceData) (sev : AlarmSeverity) (threshold_type : string)
    (value threshold : float) : option Session :=
  if filter_resolves p then
    let db := before_query db in
    match list_find (same_alarm data) (rows db) with
    | Some (i, existing_alarm) =>
        if message_resolves p then
          Some (mkSession
                  (<[i := updated p utcnow data sev threshold_type value
                            existing_alarm]> (rows db))
                  (pending db) (autoflush db))
        else None
    | None =>
        if message_resolves p && constructor_accepts p then
          Some (mkSession (rows db)
                  (pending db ++ [created utcnow data sev threshold_type value
                                    threshold])
                  (autoflush db))
        else None
    end
  else None.

(** *** The check *)

(** Python's [value >= bound] and [value <= bound] on floats. *)
Definition ge_float (value bound : float) : bool := PrimFloat.leb bound value.
Definition le_float (value bound : float) : bool := PrimFloat.leb value bound.

(** [thresholds.get(name, float('inf'))] and [thresholds.get(name, float('-inf'))]. *)
Definition get_or (th : gmap string float) (name : string) (dflt : float) : float :=
  default dflt (th !! name).

(** The writer as the check calls it: with the session, the sample, the
    severity, the threshold type, the value and the threshold. [None] is
    a call that raises. *)
Definition Writer (St : Type) : Type :=
  St -> PerformanceData -> AlarmSeverity -> string -> float -> float -> option St.

(** The body of the [for data in recent_data] loop. [None] is an
    exception, which leaves the loop and the pass: the [KeyError] of
    [thresholds["critical"]] or [thresholds["warning"]], evaluated before
    the call, or what the writer raises. *)
Definition check_sample {St : Type} (writer : Writer St) (table : threshold_table)
    (db : St) (data : PerformanceData) : option St :=
  let metric_name := pd_metric_type data in
  match table !! metric_name with
  | None => Some db
  | Some th =>
      let value := pd_value data in
      if ge_float value (get_or th "critical" infinity)
         || le_float value (get_or th "critical_low" neg_infinity)
      then
        threshold ← th !! "critical";
        writer db data CRITICAL "critical" value threshold
      else if ge_float value (get_or th "warning" infinity)
              || le_float value (get_or th "warning_low" neg_infinity)
      then
        threshold ← th !! "warning";
        writer db data WARNING "warning" value threshold
      else Some db
  end.

(** The loop; [writer_at i] is the writer while the sample at position [i]
    is handled. *)
Fixpoint check_loop {St : Type} (writer_at : nat -> Writer St) (i : nat)
    (table : threshold_table) (db : St) (recent : list PerformanceData)
    : option St :=
  match recent with
  | [] => Some db
  | data :: rest =>
      db' ← check_sample (writer_at i) table db data;
      check_loop writer_at (S i) table db' rest
  end.

Definition timedelta_minutes (n : Z) : Z := n * 60 * 1000000.

(** The query for the samples of the last ten minutes. *)
Definition recent_data (utcnow : Z) (perf : list PerformanceData)
    : list PerformanceData :=
  List.filter (fun d => utcnow - timedelta_minutes 10 <=? pd_timestamp d) perf.

(** [db.commit()]: the pending alarms join the table. *)
Definition commit (db : Session) : list Alarm := rows db ++ pending db.

(** [_check_thresholds]: from the alarms table before the pass to the table
    after it; [clock i] is the clock reading of the writer for the sample
    at position [i]. An exception leaves the pass before [commit], and the
    table stays as it was: that of [async with] on a session that cannot be
    entered so, or one of the loop. *)
Definition _check_thresholds (p : Platform) (utcnow : Z) (clock : nat -> Z)
    (table : threshold_table) (perf : list PerformanceData)
    (alarms : list Alarm) : list Alarm :=
  if async_session p then
    match check_loop (fun i => _create_threshold_alarm p (clock i)) 0 table
            (get_db_session alarms) (recent_data utcnow perf) with
    | Some db => commit db
    | None => alarms
    end
  else alarms.

(** The number of ACTIVE alarms of the source and metric of [data]. *)
Definition active_count (data : PerformanceData) (alarms : list Alarm) : nat :=
  length (List.filter (fun a => bool_decide (same_alarm data a)) alarms).

(** What a pass may do to a stored alarm: rewrite the severity, message
    and time stamp of an ACTIVE alarm, and nothing else. *)
Definition rewritten (a a' : Alarm) : Prop :=
  device_id a' = device_id a
  /\ device_type a' = device_type a
  /\ alarm_type a' = alarm_type a
  /\ status a' = status a
  /\ additional_data a' = additional_data a
  /\ escalation_level a' = escalation_level a
  /\ (status a <> ACTIVE -> a' = a).

End ThresholdEngine.

(** ** The SNMP transport client and the ZTE adapter *)

Module Snmp.

(** A value of a variable binding: an integer-like value ([Integer],
    [Gauge32], [Counter32], [Counter64]) or an octet string. *)
Inductive snmp_value :=
| VInt (z : Z)
| VStr (s : string).

Global Instance snmp_value_eq_dec : EqDecision snmp_value.
Proof. solve_decision. Defined.

(** What awaiting [getCmd] gives: an exception, or the tuple
    [(error_indication, error_status, error_index, var_binds)]. The error
    indication is [None] or an error object, the error status an integer,
    [0] for [noError]; [error_index] is not read. *)
Inductive Response :=
| Raised
| Reply (error_indication : option string) (error_status : Z)
        (var_binds : list (string * snmp_value)).

(** The device as [getCmd] sees it. *)
Definition GetCmd := list string -> Response.

(** The [for i, var_bind in enumerate(var_binds)] loop of [get_bulk]. *)
Fixpoint bulk_loop (oids : list string) (i : nat)
    (var_binds : list (string * snmp_value))
    (results : gmap string snmp_value) : gmap string snmp_value :=
  match var_binds with
  | [] => results
  | var_bind :: rest =>
      bulk_loop oids (S i) rest
        (match oids !! i with
         | Some oid => <[oid := var_bind.2]> results
         | None => results
         end)
  end.

(** [SNMPService.get_bulk]. *)
Definition get_bulk (device : GetCmd) (oids : list string)
    : gmap string snmp_value :=
  match device oids with
  | Raised => ∅
  | Reply error_indication error_status var_binds =>
      if bool_decide (is_Some error_indication) then ∅
      else if bool_decide (error_status <> 0) then ∅
      else bulk_loop oids 0 var_binds ∅
  end.

(** *** Python conversions *)

(** [float(n)] of an integer: rounding to nearest, ties to even. *)
Definition float_of_Z (z : Z) : float :=
  SF2Prim (binary_normalize prec emax z 0 false).

Definition digit_of (c : ascii) : option Z :=
  let n := Z.of_N (N_of_ascii c) in
  if (48 <=? n) && (n <=? 57) then Some (n - 48) else None.

(** The digits of a decimal literal, single underscores allowed between
    digits. *)
Fixpoint digits (s : string) (acc : Z) (after_digit : bool) : option Z :=
  match s with
  | EmptyString => if after_digit then Some acc else None
  | String c s' =>
      match digit_of c with
      | Some d => digits s' (10 * acc + d) true
      | None =>
          if Ascii.eqb c "_" && after_digit then digits s' acc false else None
      end
  end.

Definition is_space (c : ascii) : bool :=
  let n := N_of_ascii c in
  ((9 <=? n) && (n <=? 13) || (28 <=? n) && (n <=? 32))%N.

Fixpoint lstrip (s : string) : string :=
  match s with
  | String c s' => if is_space c then lstrip s' else s
  | EmptyString => EmptyString
  end.

Definition strip (s : string) : string :=
  String.rev (lstrip (String.rev (lstrip s))).

(** [int(s)] of an ASCII string in base ten; [None] is [ValueError]. *)
Definition int_of_string (s : string) : option Z :=
  match strip s with
  | String "-" s' => Z.opp <$> digits s' 0 false
  | String "+" s' => digits s' 0 false
  | s' => digits s' 0 false
  end.

(** [s.split(sep)] for a one-character separator. *)
Fixpoint split_on (sep : ascii) (s : string) : list string :=
  match s with
  | EmptyString => [EmptyString]
  | String c s' =>
      if Ascii.eqb c sep then EmptyString :: split_on sep s'
      else match split_on sep s' with
           | part :: parts => String c part :: parts
           | [] => [String c EmptyString]
           end
  end.

(** [f"{a}.{b}"]. *)
Definition dotted (a b : string) : string :=
  String.append a (String.append "." b).

Section Adapter.

(** [int(v)] and [float(v)] of an octet string are the library's; [None]
    is the exception they raise. *)
Variable int_of_octets : string -> option Z.
Variable float_of_octets : string -> option float.

Definition to_int (v : snmp_value) : option Z :=
  match v with
  | VInt z => Some z
  | VStr s => int_of_octets s
  end.

Definition to_float (v : snmp_value) : option float :=
  match v with
  | VInt z => Some (float_of_Z z)
  | VStr s => float_of_octets s
  end.

Definition to_str (v : snmp_value) : string :=
  match v with
  | VInt z => pretty z
  | VStr s => s
  end.

Definition to_bool (v : snmp_value) : bool :=
  match v with
  | VInt z => negb (z =? 0)
  | VStr s => negb (String.eqb s "")
  end.

(** [data.get(key, 0)] and [data.get(key, "")]. *)
Definition get0 (data : gmap string snmp_value) (key : string) : snmp_value :=
  default (VInt 0) (data !! key).

Definition get_empty (data : gmap string snmp_value) (key : string) : snmp_value :=
  default (VStr "") (data !! key).

(** *** The OIDs of the ZTE C320 that the port and ONT fetches read *)

Definition OID_PORT_ADMIN_STATUS := "1.3.6.1.4.1.3902.1012.3.28.1.1.3"%string.
Definition OID_PORT_OPER_STATUS := "1.3.6.1.4.1.3902.1012.3.28.1.1.4"%string.
Definition OID_PORT_ONT_COUNT := "1.3.6.1.4.1.3902.1012.3.28.1.1.5"%string.
Definition OID_PORT_MAX_ONT := "1.3.6.1.4.1.3902.1012.3.28.1.1.6"%string.
Definition OID_PORT_OPTICAL_TX := "1.3.6.1.4.1.3902.1012.3.28.1.1.7"%string.
Definition OID_PORT_OPTICAL_RX := "1.3.6.1.4.1.3902.1012.3.28.1.1.8"%string.
Definition OID_PORT_TEMPERATURE := "1.3.6.1.4.1.3902.1012.3.28.1.1.9"%string.
Definition OID_PORT_VOLTAGE := "1.3.6.1.4.1.3902.1012.3.28.1.1.10"%string.
Definition OID_PORT_BIAS_CURRENT := "1.3.6.1.4.1.3902.1012.3.28.1.1.11"%string.
Definition OID_PORT_RX_BYTES := "1.3.6.1.4.1.3902.1012.3.28.2.1.2"%string.
Definition OID_PORT_TX_BYTES := "1.3.6.1.4.1.3902.1012.3.28.2.1.3"%string.
Definition OID_PORT_RX_PACKETS := "1.3.6.1.4.1.3902.1012.3.28.2.1.4"%string.
Definition OID_PORT_TX_PACKETS := "1.3.6.1.4.1.3902.1012.3.28.2.1.5"%string.
Definition OID_PORT_RX_ERRORS := "1.3.6.1.4.1.3902.1012.3.28.2.1.6"%string.
Definition OID_PORT_TX_ERRORS := "1.3.6.1.4.1.3902.1012.3.28.2.1.7"%string.

Definition OID_ONT_STATUS := "1.3.6.1.4.1.3902.1012.3.50.12.1.1.10"%string.
Definition OID_ONT_DISTANCE := "1.3.6.1.4.1.3902.1012.3.50.12.1.1.11"%string.
Definition OID_ONT_RX_POWER := "1.3.6.1.4.1.3902.1012.3.50.12.1.1.12"%string.
Definition OID_ONT_TX_POWER := "1.3.6.1.4.1.3902.1012.3.50.12.1.1.13"%string.
Definition OID_ONT_VOLTAGE := "1.3.6.1.4.1.3902.1012.3.50.12.1.1.14"%string.
Definition OID_ONT_TEMPERATURE := "1.3.6.1.4.1.3902.1012.3.50.12.1.1.15"%string.
Definition OID_ONT_SERIAL := "1.3.6.1.4.1.3902.1012.3.50.12.1.1.3"%string.
Definition OID_ONT_FIRMWARE := "1.3.6.1.4.1.3902.1012.3.50.12.1.1.16"%string.
Definition OID_ONT_HARDWARE := "1.3.6.1.4.1.3902.1012.3.50.12.1.1.17"%string.
Definition OID_ONT_MAC := "1.3.6.1.4.1.3902.1012.3.50.12.1.1.18"%string.
Definition OID_ONT_UPTIME := "1.3.6.1.4.1.3902.1012.3.50.12.1.1.19"%string.
Definition OID_ONT_RX_BYTES := "1.3.6.1.4.1.3902.1012.3.50.13.1.1.2"%string.
Definition OID_ONT_TX_BYTES := "1.3.6.1.4.1.3902.1012.3.50.13.1.1.3"%string.
Definition OID_ONT_RX_PACKETS := "1.3.6.1.4.1.3902.1012.3.50.13.1.1.4"%string.
Definition OID_ONT_TX_PACKETS := "1.3.6.1.4.1.3902.1012.3.50.13.1.1.5"%string.

Record PortInfo := mkPortInfo {
  p_slot : Z;
  p_port : Z;
  p_admin_status : bool;
  p_oper_status : string;
  p_ont_count : Z;
  p_max_ont_count : Z;
  p_optical_power_tx : float;
  p_optical_power_rx : float;
  p_temperature : float;
  p_voltage : float;
  p_bias_current : float;
  p_rx_bytes : Z;
  p_tx_bytes : Z;
  p_rx_packets : Z;
  p_tx_packets : Z;
  p_rx_errors : Z;
  p_tx_errors : Z
}.

Record ONTInfo := mkONTInfo {
  ont_id : Z;
  serial_number : string;
  status : string;
  distance : Z;
  rx_power : float;
  tx_power : float;
  voltage : float;
  temperature : float;
  firmware_version : string;
  hardware_version : string;
  mac_address : string;
  uptime : Z;
  rx_bytes : Z;
  tx_bytes : Z;
  rx_packets : Z;
  tx_packets : Z
}.

(** [float(data.get(key, 0)) / scale]. *)
Definition scaled (data : gmap string snmp_value) (key : string)
    (scale : float) : option float :=
  x ← to_float (get0 data key); Some (x / scale)%float.

Definition port_oids (port_index : string) : list string :=
  [ dotted OID_PORT_ADMIN_STATUS port_index;
    dotted OID_PORT_OPER_STATUS port_index;
    dotted OID_PORT_ONT_COUNT port_index;
    dotted OID_PORT_MAX_ONT port_index;
    dotted OID_PORT_OPTICAL_TX port_index;
    dotted OID_PORT_OPTICAL_RX port_index;
    dotted OID_PORT_TEMPERATURE port_index;
    dotted OID_PORT_VOLTAGE port_index;
    dotted OID_PORT_BIAS_CURRENT port_index;
    dotted OID_PORT_RX_BYTES port_index;
    dotted OID_PORT_TX_BYTES port_index;
    dotted OID_PORT_RX_PACKETS port_index;
    dotted OID_PORT_TX_PACKETS port_index;
    dotted OID_PORT_RX_ERRORS port_index;
    dotted OID_PORT_TX_ERRORS port_index ].

(** [ZTEOLTService.get_port_info]; [None] is the [return None] of an empty
    bulk result or of the exception handler. *)
Definition get_port_info (device : GetCmd) (slot port : Z) : option PortInfo :=
  let port_index := dotted (pretty slot) (pretty port) in
  let port_data := get_bulk device (port_oids port_index) in
  if decide (port_data = ∅) then None
  else
    let admin := to_bool (get0 port_data (dotted OID_PORT_ADMIN_STATUS port_index)) in
    let oper :=
      if decide (get0 port_data (dotted OID_PORT_OPER_STATUS port_index) = VInt 1)
      then "up"%string else "down"%string in
    ont_count ← to_int (get0 port_data (dotted OID_PORT_ONT_COUNT port_index));
    max_ont ← to_int (get0 port_data (dotted OID_PORT_MAX_ONT port_index));
    optical_tx ← scaled port_data (dotted OID_PORT_OPTICAL_TX port_index) 100;
    optical_rx ← scaled port_data (dotted OID_PORT_OPTICAL_RX port_index) 100;
    temp ← scaled port_data (dotted OID_PORT_TEMPERATURE port_index) 100;
    volt ← scaled port_data (dotted OID_PORT_VOLTAGE port_index) 1000;
    bias ← scaled port_data (dotted OID_PORT_BIAS_CURRENT port_index) 1000;
    rxb ← to_int (get0 port_data (dotted OID_PORT_RX_BYTES port_index));
    txb ← to_int (get0 port_data (dotted OID_PORT_TX_BYTES port_index));
    rxp ← to_int (get0 port_data (dotted OID_PORT_RX_PACKETS port_index));
    txp ← to_int (get0 port_data (dotted OID_PORT_TX_PACKETS port_index));
    rxe ← to_int (get0 port_data (dotted OID_PORT_RX_ERRORS port_index));
    txe ← to_int (get0 port_data (dotted OID_PORT_TX_ERRORS port_index));
    Some (mkPortInfo slot port admin oper ont_count max_ont optical_tx optical_rx
            temp volt bias rxb txb rxp txp rxe txe).

Definition ont_oids (ont_index : string) : list string :=
  [ dotted OID_ONT_STATUS ont_index;
    dotted OID_ONT_DISTANCE ont_index;
    dotted OID_ONT_RX_POWER ont_index;
    dotted OID_ONT_TX_POWER ont_index;
    dotted OID_ONT_VOLTAGE ont_index;
    dotted OID_ONT_TEMPERATURE ont_index;
    dotted OID_ONT_SERIAL ont_index;
    dotted OID_ONT_FIRMWARE ont_index;
    dotted OID_ONT_HARDWARE ont_index;
    dotted OID_ONT_MAC ont_index;
    dotted OID_ONT_UPTIME ont_index;
    dotted OID_ONT_RX_BYTES ont_index;
    dotted OID_ONT_TX_BYTES ont_index;
    dotted OID_ONT_RX_PACKETS ont_index;
    dotted OID_ONT_TX_PACKETS ont_index ].

(** [status_map.get(status_code, "unknown")]. *)
Definition status_of (status_code : Z) : string :=
  if status_code =? 1 then "online"
  else if status_code =? 2 then "offline"
  else if status_code =? 3 then "dying_gasp"
  else if status_code =? 4 then "los"
  else "unknown".

(** [ZTEOLTService.get_ont_info]. *)
Definition get_ont_info (device : GetCmd) (slot port id : Z) : option ONTInfo :=
  let ont_index := dotted (pretty slot) (dotted (pretty port) (pretty id)) in
  let ont_data := get_bulk device (ont_oids ont_index) in
  if decide (ont_data = ∅) then None
  else
    status_code ← to_int (get0 ont_data (dotted OID_ONT_STATUS ont_index));
    let serial := to_str (get_empty ont_data (dotted OID_ONT_SERIAL ont_index)) in
    dist ← to_int (get0 ont_data (dotted OID_ONT_DISTANCE ont_index));
    rx ← scaled ont_data (dotted OID_ONT_RX_POWER ont_index) 100;
    tx ← scaled ont_data (dotted OID_ONT_TX_POWER ont_index) 100;
    volt ← scaled ont_data (dotted OID_ONT_VOLTAGE ont_index) 1000;
    temp ← scaled ont_data (dotted OID_ONT_TEMPERATURE ont_index) 100;
    let fw := to_str (get_empty ont_data (dotted OID_ONT_FIRMWARE ont_index)) in
    let hw := to_str (get_empty ont_data (dotted OID_ONT_HARDWARE ont_index)) in
    let mac := to_str (get_empty ont_data (dotted OID_ONT_MAC ont_index)) in
    up ← to_int (get0 ont_data (dotted OID_ONT_UPTIME ont_index));
    rxb ← to_int (get0 ont_data (dotted OID_ONT_RX_BYTES ont_index));
    txb ← to_int (get0 ont_data (dotted OID_ONT_TX_BYTES ont_index));
    rxp ← to_int (get0 ont_data (dotted OID_ONT_RX_PACKETS ont_index));
    txp ← to_int (get0 ont_data (dotted OID_ONT_TX_PACKETS ont_index));
    Some (mkONTInfo id serial (status_of status_code) dist rx tx volt temp
            fw hw mac up rxb txb rxp txp).

(** *** Walk and ONT discovery *)

(** One item of the [nextCmd] iteration. An exception ends the iteration
    like its exhaustion does: [walk] returns what it has gathered. *)
Record WalkStep := mkStep {
  w_error_indication : option string;
  w_error_status : Z;
  w_var_binds : list (string * snmp_value)
}.

(** The device as [nextCmd] sees it: the items it yields for a subtree. *)
Definition NextCmd := string -> list WalkStep.

(** A dict that is iterated: the items in insertion order. *)
Fixpoint dict_set (k : string) (v : snmp_value)
    (d : list (string * snmp_value)) : list (string * snmp_value) :=
  match d with
  | [] => [(k, v)]
  | (k', v') :: d' =>
      if decide (k' = k) then (k', v) :: d' else (k', v') :: dict_set k v d'
  end.

Fixpoint walk_loop (steps : list WalkStep)
    (results : list (string * snmp_value)) : list (string * snmp_value) :=
  match steps with
  | [] => results
  | step :: rest =>
      if bool_decide (is_Some (w_error_indication step)) then results
      else if bool_decide (w_error_status step <> 0) then results
      else walk_loop rest
             (foldl (fun r vb => dict_set vb.1 vb.2 r) results (w_var_binds step))
  end.

(** [SNMPService.walk]. *)
Definition walk (next : NextCmd) (oid : string) : list (string * snmp_value) :=
  walk_loop (next oid) [].

(** [int(oid.split('.')[-1])]; [None] is its [ValueError]. *)
Definition ont_id_of (oid : string) : option Z :=
  part ← last (split_on "." oid); int_of_string part.

(** The detail fetch of one item of the walk result. *)
Definition fetch (device : GetCmd) (slot port : Z) (item : string * snmp_value)
    : option ONTInfo :=
  id ← ont_id_of item.1; get_ont_info device slot port id.

(** The loop of [discover_all_onts] over the items of the walk result. *)
Fixpoint discover_loop (device : GetCmd) (slot port : Z)
    (items : list (string * snmp_value)) (onts : list ONTInfo) : list ONTInfo :=
  match items with
  | [] => onts
  | (oid, value) :: rest =>
      match ont_id_of oid with
      | Some id =>
          match get_ont_info device slot port id with
          | Some ont_info => discover_loop device slot port rest (onts ++ [ont_info])
          | None => discover_loop device slot port rest onts
          end
      | None => discover_loop device slot port rest onts
      end
  end.

(** [ZTEOLTService.discover_all_onts]. *)
Definition discover_all_onts (device : GetCmd) (next : NextCmd) (slot port : Z)
    : list ONTInfo :=
  let ont_status_oid := dotted OID_ONT_STATUS (dotted (pretty slot) (pretty port)) in
  let ont_status_data := walk next ont_status_oid in
  discover_loop device slot port ont_status_data [].

(** *** Single GET and the liveness probe *)

Definition OID_SYSTEM_NAME := "1.3.6.1.2.1.1.5.0"%string.
Definition OID_SYSTEM_DESC := "1.3.6.1.2.1.1.1.0"%string.
Definition OID_SYSTEM_UPTIME := "1.3.6.1.2.1.1.3.0"%string.
Definition OID_FIRMWARE_VERSION := "1.3.6.1.4.1.3902.1012.3.1.1.1.1.2"%string.
Definition OID_HARDWARE_VERSION := "1.3.6.1.4.1.3902.1012.3.1.1.1.1.3"%string.
Definition OID_SERIAL_NUMBER := "1.3.6.1.4.1.3902.1012.3.1.1.1.1.4"%string.
Definition OID_MAC_ADDRESS := "1.3.6.1.4.1.3902.1012.3.1.1.1.1.5"%string.
Definition OID_CPU_USAGE := "1.3.6.1.4.1.3902.1012.3.1.2.1.1.2"%string.
Definition OID_MEMORY_USAGE := "1.3.6.1.4.1.3902.1012.3.1.2.1.1.3"%string.
Definition OID_TEMPERATURE := "1.3.6.1.4.1.3902.1012.3.1.2.1.1.4"%string.
Definition OID_FAN_SPEED := "1.3.6.1.4.1.3902.1012.3.1.2.1.1.5"%string.
Definition OID_POWER_CONSUMPTION := "1.3.6.1.4.1.3902.1012.3.1.2.1.1.6"%string.

(** [SNMPService.get]: the value of the first binding; [None] for an
    exception, an error, and a response without bindings. *)
Definition get (device : GetCmd) (oid : string) : option snmp_value :=
  match device [oid] with
  | Raised => None
  | Reply error_indication error_status var_binds =>
      if bool_decide (is_Some error_indication) then None
      else if bool_decide (error_status <> 0) then None
      else match var_binds with
           | var_bind :: _ => Some var_bind.2
           | [] => None
           end
  end.

(** [test_connection]: [system_name is not None]. *)
Definition test_connection (device : GetCmd) : bool :=
  bool_decide (is_Some (get device OID_SYSTEM_NAME)).

(** *** Discovery of the OLT *)

Record OLTInfo := mkOLTInfo {
  system_name : string;
  system_description : string;
  system_uptime : Z;
  o_firmware_version : string;
  o_hardware_version : string;
  o_serial_number : string;
  o_mac_address : string;
  cpu_usage : float;
  memory_usage : float;
  o_temperature : float;
  fan_speed : Z;
  power_consumption : float
}.

Definition system_oids : list string :=
  [ OID_SYSTEM_NAME; OID_SYSTEM_DESC; OID_SYSTEM_UPTIME; OID_FIRMWARE_VERSION;
    OID_HARDWARE_VERSION; OID_SERIAL_NUMBER; OID_MAC_ADDRESS ].

Definition perf_oids : list string :=
  [ OID_CPU_USAGE; OID_MEMORY_USAGE; OID_TEMPERATURE; OID_FAN_SPEED;
    OID_POWER_CONSUMPTION ].

(** [ZTEOLTService.discover_olt]. The two bulk results are not tested for
    emptiness; [None] is the [return None] of the exception handler. *)
Definition discover_olt (device : GetCmd) : option OLTInfo :=
  let system_data := get_bulk device system_oids in
  let perf_data := get_bulk device perf_oids in
  let name := to_str (get_empty system_data OID_SYSTEM_NAME) in
  let desc := to_str (get_empty system_data OID_SYSTEM_DESC) in
  up ← to_int (get0 system_data OID_SYSTEM_UPTIME);
  let fw := to_str (get_empty system_data OID_FIRMWARE_VERSION) in
  let hw := to_str (get_empty system_data OID_HARDWARE_VERSION) in
  let serial := to_str (get_empty system_data OID_SERIAL_NUMBER) in
  let mac := to_str (get_empty system_data OID_MAC_ADDRESS) in
  cpu ← to_float (get0 perf_data OID_CPU_USAGE);
  mem ← to_float (get0 perf_data OID_MEMORY_USAGE);
  temp ← to_float (get0 perf_data OID_TEMPERATURE);
  fan ← to_int (get0 perf_data OID_FAN_SPEED);
  power ← to_float (get0 perf_data OID_POWER_CONSUMPTION);
  Some (mkOLTInfo name desc up fw hw serial mac cpu mem temp fan power).

(** *** Discovery of the ports *)

(** [slot = int(oid_parts[-2]); port = int(oid_parts[-1])] under
    [len(oid_parts) >= 2]; [None] when the entry is skipped. *)
Definition port_index_of (oid : string) : option (Z * Z) :=
  let oid_parts := split_on "." oid in
  if (2 <=? length oid_parts)%nat then
    slot_part ← oid_parts !! (length oid_parts - 2)%nat;
    port_part ← last oid_parts;
    slot ← int_of_string slot_part;
    port ← int_of_string port_part;
    Some (slot, port)
  else None.

(** The detail fetch of one item of the walk of the port table. *)
Definition fetch_port (device : GetCmd) (item : string * snmp_value)
    : option PortInfo :=
  index ← port_index_of item.1; get_port_info device index.1 index.2.

Fixpoint discover_ports_loop (device : GetCmd)
    (items : list (string * snmp_value)) (ports : list PortInfo) : list PortInfo :=
  match items with
  | [] => ports
  | (oid, value) :: rest =>
      match port_index_of oid with
      | Some (slot, port) =>
          match get_port_info device slot port with
          | Some port_info => discover_ports_loop device rest (ports ++ [port_info])
          | None => discover_ports_loop device rest ports
          end
      | None => discover_ports_loop device rest ports
      end
  end.

(** [ZTEOLTService.discover_all_ports]. *)
Definition discover_all_ports (device : GetCmd) (next : NextCmd) : list PortInfo :=
  let port_status_data := walk next OID_PORT_ADMIN_STATUS in
  discover_ports_loop device port_status_data [].

(** A step of a walk that carries neither an error indication nor an error
    status. *)
Definition step_ok (step : WalkStep) : bool :=
  negb (bool_decide (is_Some (w_error_indication step)))
  && negb (bool_decide (w_error_status step <> 0)).

(** The items of an iteration before the first one that carries an error. *)
Fixpoint error_free_prefix (steps : list WalkStep) : list WalkStep :=
  match steps with
  | [] => []
  | step :: rest => if step_ok step then step :: error_free_prefix rest else []
  end.

(** The bindings of a list of items, in the order they were sent. *)
Definition bindings_of (steps : list WalkStep) : list (string * snmp_value) :=
  concat (w_var_binds <$> steps).

(** The keys of a Python dict after the assignments to [ks], in that
    order: each key stands where it was first assigned. *)
Definition insertion_order (ks : list string) : list string :=
  foldl (fun acc k => if decide (k ∈ acc) then acc else acc ++ [k]) [] ks.

End Adapter.

(** A device that answers no GET: every request raises or comes back with
    an error indication or an error status. *)
Definition dead (device : GetCmd) : Prop :=
  forall oids,
    match device oids with
    | Raised => True
    | Reply error_indication error_status _ =>
        is_Some error_indication \/ error_status <> 0
    end.

(** Every character of the string passes the test. *)
Fixpoint string_forall (P : ascii -> bool) (s : string) : bool :=
  match s with
  | EmptyString => true
  | String c s' => P c && string_forall P s'
  end.

(** A character that is neither white space nor the dot that separates
    the parts of an OID. *)
Definition plain (c : ascii) : bool :=
  negb (is_space c) && negb (Ascii.eqb c ".").

End Snmp.

(** ** Simulated inputs

    The tasks, samples, alarms and devices that the properties below are
    run on. *)

Module Simulation.
Import Scheduler AlarmModel ThresholdEngine Snmp.

(** A health check with [max_errors = 3], built at time [0]. *)
Definition sample_task : MonitoringTask :=
  new_task 0 "health" HEALTH_CHECK (mkArgs None None 60 true None None 0 3 None ∅).

(** A task whose interval carries any clock reading past [datetime.max]. *)
Definition far_task : MonitoringTask :=
  new_task 0 "far" HEALTH_CHECK
    (mkArgs None None 1000000000000 true None None 0 3 None ∅).

Definition failing : Exec := mkExec true 10 20 30.
Definition passing : Exec := mkExec false 10 20 30.

Definition sample_alarm (s : AlarmSeverity) (level : Z) : Alarm :=
  mkAlarm 1 "olt" "threshold_cpu_usage" s ACTIVE
          (mkMessage "cpu_usage" "critical" 96 "percent") 0
          (mkAdditional "cpu_usage" 96 95 "critical" "percent") level.

Definition cpu_sample (value : float) (at_time : Z) : PerformanceData :=
  mkData 1 "olt" "cpu_usage" value "percent" at_time.

Definition uptime_sample : PerformanceData :=
  mkData 1 "olt" "uptime" 123456 "seconds" 0.

Definition stored_alarm : Alarm :=
  mkAlarm 1 "olt" "threshold_cpu_usage" WARNING ACTIVE
          (mkMessage "cpu_usage" "warning" 81 "percent") 10
          (mkAdditional "cpu_usage" 81 80 "warning" "percent") 0.

(** A platform with a [Base] that declares the primary key and the time
    stamps of a row, and with a session that [async with] cannot enter. *)
Definition plain_platform : Platform :=
  mkPlatform ["id"; "created_at"; "updated_at"] false.

(** A platform on which the pass runs to its commit: a [Base] that
    declares the names that the writer uses and the classes lack, and a
    session that [async with] enters. *)
Definition full_platform : Platform :=
  mkPlatform ["id"; "device_id"; "device_type"; "message"; "timestamp";
              "additional_data"] true.

(** A writer that only records the calls it gets. *)
Definition Call : Type := AlarmSeverity * string * float * float.

Definition recorder : Writer (list Call) :=
  fun calls _ sev threshold_type value threshold =>
    Some (calls ++ [(sev, threshold_type, value, threshold)]).

(** A simulated device: it answers a GET from a table of its objects, with
    error status 2 ([noSuchName]) when an OID is not in the table. *)
Definition table_device (objects : list (string * snmp_value)) : GetCmd :=
  fun oids =>
    match mapM (fun oid => (oid,.) <$> (list_to_map objects : gmap string snmp_value) !! oid) oids with
    | Some vbs => Reply None 0 vbs
    | None => Reply None 2 []
    end.

Definition five_objects : list (string * snmp_value) :=
  [ ("1.3.6.1.2.1.1.5.0", VStr "olt-1");
    ("1.3.6.1.2.1.1.1.0", VStr "ZTE C320");
    ("1.3.6.1.2.1.1.3.0", VInt 86400);
    ("1.3.6.1.4.1.3902.1012.3.1.2.1.1.2", VInt 42);
    ("1.3.6.1.4.1.3902.1012.3.1.2.1.1.3", VInt 63) ]%string.

(** The objects of one healthy ONT. *)
Definition ont_objects (ont_index : string) (rx_raw : Z) : list (string * snmp_value) :=
  [ (dotted OID_ONT_STATUS ont_index, VInt 1);
    (dotted OID_ONT_DISTANCE ont_index, VInt 1250);
    (dotted OID_ONT_RX_POWER ont_index, VInt rx_raw);
    (dotted OID_ONT_TX_POWER ont_index, VInt 215);
    (dotted OID_ONT_VOLTAGE ont_index, VInt 3300);
    (dotted OID_ONT_TEMPERATURE ont_index, VInt 4150);
    (dotted OID_ONT_SERIAL ont_index, VStr "ZTEGC0FFEE01");
    (dotted OID_ONT_FIRMWARE ont_index, VStr "V6.0.10");
    (dotted OID_ONT_HARDWARE ont_index, VStr "F660");
    (dotted OID_ONT_MAC ont_index, VStr "00:19:c6:00:00:01");
    (dotted OID_ONT_UPTIME ont_index, VInt 86400);
    (dotted OID_ONT_RX_BYTES ont_index, VInt 1000);
    (dotted OID_ONT_TX_BYTES ont_index, VInt 2000);
    (dotted OID_ONT_RX_PACKETS ont_index, VInt 10);
    (dotted OID_ONT_TX_PACKETS ont_index, VInt 20) ].

(** The objects of one port. *)
Definition port_objects (port_index : string) : list (string * snmp_value) :=
  [ (dotted OID_PORT_ADMIN_STATUS port_index, VInt 1);
    (dotted OID_PORT_OPER_STATUS port_index, VInt 1);
    (dotted OID_PORT_ONT_COUNT port_index, VInt 3);
    (dotted OID_PORT_MAX_ONT port_index, VInt 128);
    (dotted OID_PORT_OPTICAL_TX port_index, VInt 312);
    (dotted OID_PORT_OPTICAL_RX port_index, VInt (-1875));
    (dotted OID_PORT_TEMPERATURE port_index, VInt 4500);
    (dotted OID_PORT_VOLTAGE port_index, VInt 3300);
    (dotted OID_PORT_BIAS_CURRENT port_index, VInt 12500);
    (dotted OID_PORT_RX_BYTES port_index, VInt 1000);
    (dotted OID_PORT_TX_BYTES port_index, VInt 2000);
    (dotted OID_PORT_RX_PACKETS port_index, VInt 10);
    (dotted OID_PORT_TX_PACKETS port_index, VInt 20);
    (dotted OID_PORT_RX_ERRORS port_index, VInt 0);
    (dotted OID_PORT_TX_ERRORS port_index, VInt 0) ].

(** Port 1/2 with the ONTs 1 and 3; ONT 2 is enumerated by the walk but
    its objects are gone, so its detail fetch gets an error status. *)
Definition olt_device : GetCmd :=
  table_device (port_objects "1.2" ++ ont_objects "1.2.1" (-2550)
                ++ ont_objects "1.2.3" (-1950)).

Definition olt_walk : NextCmd :=
  fun _ =>
    [ mkStep None 0 [(dotted OID_ONT_STATUS "1.2.1", VInt 1)];
      mkStep None 0 [(dotted OID_ONT_STATUS "1.2.2", VInt 2)];
      mkStep None 0 [(dotted OID_ONT_STATUS "1.2.3", VInt 1)] ].

(** A walk of the port table that enumerates the ports 1/2 and 1/3; the
    device has the objects of port 1/2 only. *)
Definition port_walk : NextCmd :=
  fun _ =>
    [ mkStep None 0 [(dotted OID_PORT_ADMIN_STATUS "1.2", VInt 1)];
      mkStep None 0 [(dotted OID_PORT_ADMIN_STATUS "1.3", VInt 1)] ].

(** A device that raises on every request. *)
Definition silent_device : GetCmd := fun _ => Raised.

(** A device that answers every request with the same fifteen bindings,
    all named alike. *)
Definition fixed_reply_device : GetCmd :=
  fun _ =>
    Reply None 0
      [ ("x", VInt 1); ("x", VInt 1250); ("x", VInt (-2550)); ("x", VInt 215);
        ("x", VInt 3300); ("x", VInt 4150); ("x", VStr "ZTEGC0FFEE01");
        ("x", VStr "V6.0.10"); ("x", VStr "F660"); ("x", VStr "00:19:c6:00:00:01");
        ("x", VInt 86400); ("x", VInt 1000); ("x", VInt 2000); ("x", VInt 10);
        ("x", VInt 20) ]%string.

Definition no_octets_int : string -> option Z := fun _ => None.
Definition no_octets_float : string -> option float := fun _ => None.

(** A table with an entry that has a lower bound only, and a sample below
    that bound. *)
Definition low_only_table : threshold_table :=
  <["signal_strength" := <["critical_low" := (-30)%float]> ∅]> thresholds.

Definition weak_signal : PerformanceData :=
  mkData 9 "ont" "signal_strength" (-35) "dbm" 0.

End Simulation.

(** * Properties *)

(** ** Scheduler *)

Module SchedulerFacts.
Import Scheduler Simulation.

Lemma schedule_next_run_keeps now t :
  error_count (task_of (schedule_next_run now t)) = error_count t
  /\ max_errors (task_of (schedule_next_run now t)) = max_errors t
  /\ enabled (task_of (schedule_next_run now t)) = enabled t
  /\ last_run (task_of (schedule_next_run now t)) = last_run t
  /\ callback (task_of (schedule_next_run now t)) = callback t.
Proof. unfold schedule_next_run. by destruct (representable _ _). Qed.

Lemma schedule_next_run_next now t :
  next_run (task_of (schedule_next_run now t))
  = if representable now (interval_seconds t)
    then now + timedelta_seconds (interval_seconds t) else next_run t.
Proof. unfold schedule_next_run. by destruct (representable _ _). Qed.

Lemma mark_error_count now t :
  error_count (task_of (mark_error now t)) = error_count t + 1.
Proof.
  unfold mark_error. simpl. destruct (_ <=? _); [done |].
  by destruct (schedule_next_run_keeps now (set_error_count (error_count t + 1) t))
    as (-> & _).
Qed.

Lemma mark_error_max now t : max_errors (task_of (mark_error now t)) = max_errors t.
Proof.
  unfold mark_error. simpl. destruct (_ <=? _); [done |].
  by destruct (schedule_next_run_keeps now (set_error_count (error_count t + 1) t))
    as (_ & -> & _).
Qed.

Lemma mark_error_last_run now t :
  last_run (task_of (mark_error now t)) = last_run t.
Proof.
  unfold mark_error. simpl. destruct (_ <=? _); [done |].
  by destruct (schedule_next_run_keeps now (set_error_count (error_count t + 1) t))
    as (_ & _ & _ & -> & _).
Qed.

Lemma mark_error_disables now t :
  max_errors t <= error_count t + 1 -> enabled (task_of (mark_error now t)) = false.
Proof.
  intros Hle. unfold mark_error. simpl.
  destruct (Z.leb_spec (max_errors t) (error_count t + 1)); [done | lia].
Qed.

Lemma mark_error_retries now t :
  error_count t + 1 < max_errors t ->
  enabled (task_of (mark_error now t)) = enabled t
  /\ next_run (task_of (mark_error now t))
     = if representable now (interval_seconds t)
       then now + timedelta_seconds (interval_seconds t) else next_run t.
Proof.
  intros Hlt. unfold mark_error. simpl.
  destruct (Z.leb_spec (max_errors t) (error_count t + 1)); [lia |].
  rewrite schedule_next_run_next. split; [| done].
  by destruct (schedule_next_run_keeps now (set_error_count (error_count t + 1) t))
    as (_ & _ & -> & _).
Qed.

Lemma mark_error_stays_disabled now t :
  enabled t = false -> enabled (task_of (mark_error now t)) = false.
Proof.
  intros H. unfold mark_error. simpl. destruct (_ <=? _); [done |].
  by destruct (schedule_next_run_keeps now (set_error_count (error_count t + 1) t))
    as (_ & _ & -> & _).
Qed.

Lemma mark_success_resets n1 n2 t :
  error_count (task_of (mark_success n1 n2 t)) = 0
  /\ next_run (task_of (mark_success n1 n2 t))
     = (if representable n2 (interval_seconds t)
        then n2 + timedelta_seconds (interval_seconds t) else next_run t)
  /\ last_run (task_of (mark_success n1 n2 t)) = Some n1
  /\ enabled (task_of (mark_success n1 n2 t)) = enabled t
  /\ callback (task_of (mark_success n1 n2 t)) = callback t.
Proof.
  unfold mark_success. rewrite schedule_next_run_next.
  by destruct (schedule_next_run_keeps n2
                 (set_error_count 0 (set_last_run (Some n1) t)))
    as (-> & _ & -> & -> & ->).
Qed.

Lemma mark_errors_count nows t :
  error_count (mark_errors nows t) = error_count t + Z.of_nat (length nows)
  /\ max_errors (mark_errors nows t) = max_errors t.
Proof.
  unfold mark_errors. revert t.
  induction nows as [|now nows IH]; intros t; simpl.
  - split; [lia | done].
  - destruct (IH (task_of (mark_error now t))) as [-> ->].
    rewrite mark_error_count, mark_error_max. split; [lia | done].
Qed.

Lemma mark_errors_disable nows t :
  nows <> [] ->
  max_errors t <= error_count t + Z.of_nat (length nows) ->
  enabled (mark_errors nows t) = false.
Proof.
  destruct nows as [|x nows _] using rev_ind; [done |].
  intros _ Hle. unfold mark_errors. rewrite foldl_app. simpl.
  apply mark_error_disables. fold (mark_errors nows t).
  destruct (mark_errors_count nows t) as [-> ->].
  rewrite length_app in Hle. simpl in Hle. lia.
Qed.

Lemma is_due_disabled now t : enabled t = false -> is_due now t = false.
Proof. unfold is_due. by intros ->. Qed.

Lemma due_tasks_spec it tasks k t :
  In (k, t) (due_tasks it tasks) <->
  tasks !! k = Some t /\ is_due (due_clock it k) t = true /\ is_healthy t = true.
Proof.
  unfold due_tasks. rewrite filter_In, <- list_elem_of_In, elem_of_map_to_list.
  unfold selected. simpl. rewrite andb_true_iff. tauto.
Qed.

Lemma run_due_other it due (tasks : tasks_t) k :
  (forall t, ~ In (k, t) due) -> run_due it due tasks !! k = tasks !! k.
Proof.
  unfold run_due. revert tasks.
  induction due as [|[k' t'] due IH]; intros tasks Hk; simpl; [done |].
  rewrite IH by (intros t Hin; apply (Hk t); by right).
  apply lookup_insert_ne. intros ->. apply (Hk t'). by left.
Qed.

Lemma iteration_skips_disabled it (tasks : tasks_t) k t :
  tasks !! k = Some t -> enabled t = false ->
  monitoring_iteration it tasks !! k = Some t.
Proof.
  intros Hk Hoff. unfold monitoring_iteration.
  rewrite run_due_other; [done |].
  intros t' Hin. apply due_tasks_spec in Hin as (Hk' & Hdue & _).
  assert (t' = t) as -> by congruence.
  rewrite is_due_disabled in Hdue; done.
Qed.

Lemma loop_skips_disabled its (tasks : tasks_t) k t :
  tasks !! k = Some t -> enabled t = false ->
  _monitoring_loop its tasks !! k = Some t.
Proof.
  unfold _monitoring_loop. revert tasks.
  induction its as [|it its IH]; intros tasks Hk Hoff; simpl; [done |].
  apply IH; [| done]. by apply iteration_skips_disabled.
Qed.

Lemma execute_task_failure e t :
  body_raises e = true -> _execute_task e t = task_of (mark_error (now_error e) t).
Proof. unfold _execute_task. by intros ->. Qed.

Lemma execute_task_success e t :
  body_raises e = false -> callback_returns t ->
  representable (now_schedule e) (interval_seconds t) = true ->
  _execute_task e t = task_of (mark_success (now_last_run e) (now_schedule e) t).
Proof.
  unfold _execute_task, callback_returns, mark_success, schedule_next_run.
  intros -> Hcb Hrep. simpl. rewrite Hrep. simpl.
  destruct (callback t) as [cb|]; [by rewrite Hcb | done].
Qed.

Lemma execute_task_overflow e t :
  body_raises e = false ->
  representable (now_schedule e) (interval_seconds t) = false ->
  _execute_task e t
  = task_of (mark_error (now_error e)
               (set_error_count 0 (set_last_run (Some (now_last_run e)) t))).
Proof.
  unfold _execute_task, mark_success, schedule_next_run.
  intros -> Hrep. simpl. by rewrite Hrep.
Qed.

(** C4. A failed execution adds one to the error counter; when the counter
    reaches [max_errors] the task is disabled (as after three failures in a
    row with [max_errors = 3]), and a disabled task is never again among the
    due tasks of the scheduler loop, which leaves it as it is. An execution
    whose body and callback return, at a clock reading for which the
    reading plus the interval is a [datetime], sets the counter to [0] and
    [next_run] to the reading plus the interval. When that sum is not a
    [datetime], the [OverflowError] of the rescheduling turns the execution
    into a failed one: the counter ends at [1], and [next_run] stays when
    the handler's rescheduling overflows as well. *)
Theorem task_self_disable :
  (forall e t, body_raises e = true ->
        _execute_task e t = task_of (mark_error (now_error e) t)
        /\ error_count (_execute_task e t) = error_count t + 1)
  /\ (forall now t, max_errors t <= error_count t + 1 ->
        enabled (task_of (mark_error now t)) = false)
  /\ (forall a b c t, error_count t = 0 -> max_errors t = 3 ->
        enabled (mark_errors [a; b; c] t) = false)
  /\ (forall its (tasks : tasks_t) k t, tasks !! k = Some t -> enabled t = false ->
        _monitoring_loop its tasks !! k = Some t
        /\ forall it t', ~ In (k, t') (due_tasks it (_monitoring_loop its tasks)))
  /\ (forall e t, body_raises e = false -> callback_returns t ->
        representable (now_schedule e) (interval_seconds t) = true ->
        error_count (_execute_task e t) = 0
        /\ next_run (_execute_task e t)
           = now_schedule e + timedelta_seconds (interval_seconds t))
  /\ (forall e t, body_raises e = false ->
        representable (now_schedule e) (interval_seconds t) = false ->
        error_count (_execute_task e t) = 1
        /\ (representable (now_error e) (interval_seconds t) = false ->
            next_run (_execute_task e t) = next_run t)).
Proof.
  split.
  { intros e t He. rewrite execute_task_failure by done.
    split; [done | apply mark_error_count]. }
  split; [apply mark_error_disables |].
  split.
  { intros a b c t H0 H3. apply mark_errors_disable; [done |]. simpl. lia. }
  split.
  { intros its tasks k t Hk Hoff.
    pose proof (loop_skips_disabled its tasks k t Hk Hoff) as Hk'.
    split; [done |].
    intros it t' Hin. apply due_tasks_spec in Hin as (Hk'' & Hdue & _).
    assert (t' = t) as -> by congruence.
    rewrite is_due_disabled in Hdue; done. }
  split.
  { intros e t He Hcb Hrep. rewrite execute_task_success by done.
    destruct (mark_success_resets (now_last_run e) (now_schedule e) t)
      as (-> & -> & _). by rewrite Hrep. }
  intros e t He Hrep. rewrite execute_task_overflow by done.
  split; [by rewrite mark_error_count |].
  intros Hrep'. unfold mark_error, schedule_next_run. simpl.
  destruct (_ <=? _); [done |]. by rewrite Hrep'.
Qed.

Lemma task_self_disable_witness :
  error_count (_execute_task failing sample_task) = 1
  /\ enabled (task_of (mark_error 30 (set_error_count 2 sample_task))) = false
  /\ enabled (mark_errors [1; 2; 3] sample_task) = false
  /\ _monitoring_loop [mkIter (fun _ => 100) (fun _ => passing)]
       {["health" := set_enabled false sample_task]} !! "health"
     = Some (set_enabled false sample_task)
  /\ next_run (_execute_task passing sample_task) = 20 + 60 * 1000000
  /\ error_count (_execute_task passing far_task) = 1.
Proof.
  destruct task_self_disable as (Hfail & Hmax & Hthree & Hloop & Hok & Hfar).
  split; [apply (Hfail failing sample_task); reflexivity |].
  split; [apply (Hmax 30 (set_error_count 2 sample_task)); vm_compute; discriminate |].
  split; [apply (Hthree 1 2 3 sample_task); reflexivity |].
  split.
  - apply (Hloop [mkIter (fun _ => 100) (fun _ => passing)]
             {["health" := set_enabled false sample_task]} "health"
             (set_enabled false sample_task)); reflexivity.
  - split.
    + apply (Hok passing sample_task); [reflexivity | exact I | reflexivity].
    + apply (Hfar passing far_task); reflexivity.
Defined.

(** The same through the loop: three failing passes, each at a time when
    the task is due, disable it; a fourth pass leaves it alone. *)
Example three_failing_passes :
  let it now := mkIter (fun _ => now) (fun _ => mkExec true now now now) in
  let tasks := add_task sample_task ∅ in
  (enabled <$> _monitoring_loop [it 0; it 100000000; it 200000000] tasks !! "health")
    = Some false
  /\ due_tasks (it 900000000)
       (_monitoring_loop [it 0; it 100000000; it 200000000] tasks) = [].
Proof. vm_compute. done. Qed.

Lemma new_task_next_run utcnow id ty a :
  a_next_run a = None -> next_run (new_task utcnow id ty a) = utcnow.
Proof. unfold new_task. simpl. by intros ->. Qed.

Lemma new_task_is_due utcnow id ty a now :
  a_next_run a = None -> a_enabled a = true -> utcnow <= now ->
  is_due now (new_task utcnow id ty a) = true.
Proof.
  intros Hn He Hle. unfold is_due.
  rewrite new_task_next_run by done. simpl. rewrite He. simpl. lia.
Qed.

Lemma default_tasks_lookup c1 c2 c3 c4 (tasks : tasks_t) k :
  In k default_task_ids ->
  exists c ty a,
    In c [c1; c2; c3; c4]
    /\ a_next_run a = None /\ a_enabled a = true
    /\ a_error_count a = 0 /\ a_max_errors a = 5
    /\ _initialize_default_tasks c1 c2 c3 c4 tasks !! k = Some (new_task c k ty a).
Proof.
  unfold default_task_ids, _initialize_default_tasks, add_task. simpl.
  intros [<- | [<- | [<- | [<- | []]]]].
  - exists c1, DEVICE_DISCOVERY, (with_interval 600 {["discover_all" := PBool true]}).
    repeat split; try tauto. by simplify_map_eq.
  - exists c2, HEALTH_CHECK, (with_interval 300 {["check_all" := PBool true]}).
    repeat split; try tauto. by simplify_map_eq.
  - exists c3, THRESHOLD_CHECK, (with_interval 120 {["check_all" := PBool true]}).
    repeat split; try tauto. by simplify_map_eq.
  - exists c4, ALARM_MONITORING, (with_interval 60 {["monitor_all" := PBool true]}).
    repeat split; try tauto. by simplify_map_eq.
Qed.

(** C10. A task constructed without [next_run] has [next_run] equal to the
    clock reading of its construction, so an enabled new task is due at any
    clock reading that is not earlier; each of the four default tasks is
    among the due tasks of a pass of the loop whose clock readings are not
    earlier than the constructions. *)
Theorem new_task_due_at_once :
  (forall utcnow id ty a, a_next_run a = None ->
        next_run (new_task utcnow id ty a) = utcnow)
  /\ (forall utcnow id ty a now,
        a_next_run a = None -> a_enabled a = true -> utcnow <= now ->
        is_due now (new_task utcnow id ty a) = true)
  /\ (forall c1 c2 c3 c4 (tasks : tasks_t) it k,
        (forall c, In c [c1; c2; c3; c4] -> c <= due_clock it k) ->
        In k default_task_ids ->
        exists t, _initialize_default_tasks c1 c2 c3 c4 tasks !! k = Some t
                  /\ next_run t <= due_clock it k
                  /\ In (k, t) (due_tasks it (_initialize_default_tasks c1 c2 c3 c4 tasks))).
Proof.
  split; [apply new_task_next_run |].
  split; [apply new_task_is_due |].
  intros c1 c2 c3 c4 tasks it k Hclock Hk.
  destruct (default_tasks_lookup c1 c2 c3 c4 tasks k Hk)
    as (c & ty & a & Hc & Hn & He & Hec & Hmax & Hlook).
  exists (new_task c k ty a). split; [done |].
  split; [rewrite new_task_next_run by done; by apply Hclock |].
  apply due_tasks_spec. split; [done |].
  split; [apply new_task_is_due; auto |].
  unfold is_healthy. simpl. rewrite Hec, Hmax. done.
Qed.

Lemma new_task_due_at_once_witness :
  next_run (new_task 7 "probe" HEALTH_CHECK default_args) = 7
  /\ is_due 7 (new_task 7 "probe" HEALTH_CHECK default_args) = true
  /\ exists t,
       _initialize_default_tasks 1 2 3 4 ∅ !! "global_threshold_check" = Some t
       /\ next_run t <= 5
       /\ In ("global_threshold_check"%string, t)
            (due_tasks (mkIter (fun _ => 5) (fun _ => passing))
               (_initialize_default_tasks 1 2 3 4 ∅)).
Proof.
  destruct new_task_due_at_once as (Hnext & Hdue & Hdefault).
  split; [apply (Hnext 7 "probe"%string HEALTH_CHECK default_args); reflexivity |].
  split; [apply (Hdue 7 "probe"%string HEALTH_CHECK default_args 7); [reflexivity | reflexivity | lia] |].
  apply (Hdefault 1 2 3 4 ∅ (mkIter (fun _ => 5) (fun _ => passing))
           "global_threshold_check"%string).
  - simpl. intros c [<- | [<- | [<- | [<- | []]]]]; lia.
  - simpl. tauto.
Defined.

(** *** One pass of the loop, key by key *)

Lemma filter_fst_NoDup {A} (f : string * A -> bool) (l : list (string * A)) :
  NoDup l.*1 -> NoDup (List.filter f l).*1.
Proof.
  induction l as [|[k x] l IH]; simpl; [done |].
  rewrite NoDup_cons. intros [Hk Hl].
  destruct (f (k, x)); simpl; [| auto].
  apply NoDup_cons. split; [| auto].
  intros Hin. apply Hk.
  apply list_elem_of_fmap in Hin as [[k' x'] [-> Hin]].
  apply list_elem_of_In, filter_In in Hin as [Hin _].
  apply list_elem_of_fmap. exists (k', x'). split; [done |].
  by apply list_elem_of_In.
Qed.

Lemma run_due_in it due (tasks : tasks_t) k t :
  NoDup due.*1 -> In (k, t) due ->
  run_due it due tasks !! k = Some (_execute_task (exec it k) t).
Proof.
  unfold run_due. revert tasks.
  induction due as [|[k' t'] due IH]; intros tasks Hnd Hin; [done |].
  simpl in Hnd. apply NoDup_cons in Hnd as [Hk' Hnd].
  destruct Hin as [[= -> ->] | Hin]; simpl.
  - fold (run_due it due (<[k := _execute_task (exec it k) t]> tasks)).
    rewrite run_due_other; [apply lookup_insert_eq |].
    intros t0 Hin. apply Hk'.
    apply list_elem_of_fmap. exists (k, t0). split; [done |].
    by apply list_elem_of_In.
  - by apply IH.
Qed.

Lemma due_tasks_NoDup it (tasks : tasks_t) : NoDup (due_tasks it tasks).*1.
Proof. apply filter_fst_NoDup, NoDup_fst_map_to_list. Qed.

Lemma monitoring_iteration_at it (tasks : tasks_t) k :
  monitoring_iteration it tasks !! k
  = (fun t => if selected it (k, t) then _execute_task (exec it k) t else t)
      <$> tasks !! k.
Proof.
  unfold monitoring_iteration.
  destruct (tasks !! k) as [t|] eqn:Hk; simpl.
  - destruct (selected it (k, t)) eqn:Hsel.
    + apply run_due_in; [apply due_tasks_NoDup |].
      apply due_tasks_spec. unfold selected in Hsel. simpl in Hsel.
      apply andb_true_iff in Hsel. tauto.
    + rewrite run_due_other; [done |].
      intros t' Hin. apply due_tasks_spec in Hin as (Hk' & Hdue & Hh).
      assert (t' = t) as -> by congruence.
      unfold selected in Hsel. simpl in Hsel. rewrite Hdue, Hh in Hsel. done.
  - rewrite run_due_other; [done |].
    intros t' Hin. apply due_tasks_spec in Hin as (Hk' & _). congruence.
Qed.

(** X1. One pass of the loop replaces each task that is due and healthy by
    its execution and leaves every other task, and the set of task ids, as
    they are. *)
Theorem monitoring_iteration_lookup it (tasks : tasks_t) :
  (forall k,
      monitoring_iteration it tasks !! k
      = (fun t => if selected it (k, t) then _execute_task (exec it k) t else t)
          <$> tasks !! k)
  /\ dom (monitoring_iteration it tasks) = dom tasks.
Proof.
  split; [intros k; apply monitoring_iteration_at |].
  apply set_eq. intros k.
  by rewrite !elem_of_dom, monitoring_iteration_at, fmap_is_Some.
Qed.

(** *** What executions keep *)

Lemma same_config_trans t1 t2 t3 :
  same_config t1 t2 -> same_config t2 t3 -> same_config t1 t3.
Proof. unfold same_config. intuition congruence. Qed.

Lemma schedule_next_run_config now t :
  same_config t (task_of (schedule_next_run now t)).
Proof. unfold schedule_next_run. by destruct (representable _ _). Qed.

Lemma mark_error_config now t : same_config t (task_of (mark_error now t)).
Proof.
  unfold mark_error. simpl. destruct (_ <=? _); [done |].
  eapply same_config_trans; [| apply schedule_next_run_config]. done.
Qed.

Lemma mark_success_config n1 n2 t :
  same_config t (task_of (mark_success n1 n2 t)).
Proof.
  unfold mark_success.
  eapply same_config_trans; [| apply schedule_next_run_config]. done.
Qed.

Lemma execute_task_marks e t :
  _execute_task e t = task_of (mark_error (now_error e) t)
  \/ _execute_task e t = task_of (mark_success (now_last_run e) (now_schedule e) t)
  \/ _execute_task e t
     = task_of (mark_error (now_error e)
                  (task_of (mark_success (now_last_run e) (now_schedule e) t))).
Proof.
  unfold _execute_task. destruct (body_raises e); [by left |]. right.
  destruct (mark_success _ _ t) as [t1 | t1]; simpl; [| by right].
  destruct (callback t1) as [cb|]; [| by left].
  destruct (cb true); [by right | by left].
Qed.

Lemma execute_task_config e t : same_config t (_execute_task e t).
Proof.
  destruct (execute_task_marks e t) as [-> | [-> | ->]].
  - apply mark_error_config.
  - apply mark_success_config.
  - eapply same_config_trans; [apply mark_success_config | apply mark_error_config].
Qed.

Lemma mark_error_never_enables now t :
  enabled (task_of (mark_error now t)) = true -> enabled t = true.
Proof.
  destruct (enabled t) eqn:Hen; [done |].
  by rewrite mark_error_stays_disabled.
Qed.

Lemma execute_task_never_enables e t :
  enabled (_execute_task e t) = true -> enabled t = true.
Proof.
  pose proof (mark_success_resets (now_last_run e) (now_schedule e) t)
    as (_ & _ & _ & Hen & _).
  destruct (execute_task_marks e t) as [-> | [-> | ->]].
  - apply mark_error_never_enables.
  - by rewrite Hen.
  - intros H. apply mark_error_never_enables in H. by rewrite Hen in H.
Qed.

(** X2. Whatever the loop meets, a task keeps the id, type, target,
    interval, error budget, callback and parameters it was added with, a
    task that is disabled is never enabled again, and no task id appears
    or disappears. *)
Theorem monitoring_loop_keeps its :
  forall (tasks : tasks_t) k,
    match _monitoring_loop its tasks !! k, tasks !! k with
    | Some t', Some t => same_config t t' /\ (enabled t' = true -> enabled t = true)
    | None, None => True
    | _, _ => False
    end.
Proof.
  unfold _monitoring_loop.
  induction its as [|it its IH]; intros tasks k; simpl.
  - destruct (tasks !! k); [| done]. split; [done | auto].
  - specialize (IH (monitoring_iteration it tasks) k).
    rewrite monitoring_iteration_at in IH.
    destruct (foldl _ _ its !! k) as [t'|], (tasks !! k) as [t|]; simpl in IH;
      try done.
    destruct IH as [Hcfg Hen].
    destruct (selected it (k, t)); [| done].
    split.
    + eapply same_config_trans; [apply execute_task_config | done].
    + intros H. by eapply execute_task_never_enables, Hen.
Qed.

(** *** Tasks the loop never runs *)

Lemma count_tasks_pos cond (tasks : tasks_t) k t :
  tasks !! k = Some t -> cond (k, t) = true -> (1 <= count_tasks cond tasks)%nat.
Proof.
  intros Hk Hc. unfold count_tasks.
  assert (In (k, t) (List.filter cond (map_to_list tasks))) as Hin.
  { apply filter_In. split; [| done].
    by apply list_elem_of_In, elem_of_map_to_list. }
  destruct (List.filter cond (map_to_list tasks)); [done | simpl; lia].
Qed.

Lemma iteration_skips_unhealthy it (tasks : tasks_t) k t :
  tasks !! k = Some t -> is_healthy t = false ->
  monitoring_iteration it tasks !! k = Some t.
Proof.
  intros Hk Hh. rewrite monitoring_iteration_at, Hk. simpl.
  unfold selected. simpl. by rewrite Hh, andb_false_r.
Qed.

(** X3. A task whose error count has reached its budget while it is still
    enabled (one built with [max_errors <= error_count], as with
    [max_errors = 0]) is never executed by the loop, although it is due:
    the statistics count it among the enabled and the due tasks. *)
Theorem exhausted_task_never_runs its (tasks : tasks_t) k t :
  tasks !! k = Some t ->
  max_errors t <= error_count t ->
  _monitoring_loop its tasks !! k = Some t
  /\ (forall running n clock,
        enabled t = true -> next_run t <= clock k ->
        let stats := get_service_stats running n clock
                       (_monitoring_loop its tasks) in
        (1 <= s_due_tasks stats)%nat /\ (1 <= s_enabled_tasks stats)%nat).
Proof.
  intros Hk Hmax.
  assert (is_healthy t = false) as Hh.
  { unfold is_healthy. lia. }
  assert (_monitoring_loop its tasks !! k = Some t) as Hloop.
  { unfold _monitoring_loop. revert tasks Hk.
    induction its as [|it its IH]; intros tasks Hk; simpl; [done |].
    apply IH. by apply iteration_skips_unhealthy. }
  split; [done |].
  intros running n clock Hen Hnext. simpl. split.
  - apply (count_tasks_pos _ _ k t Hloop). unfold is_due. simpl.
    rewrite Hen. simpl. lia.
  - by apply (count_tasks_pos _ _ k t Hloop).
Qed.

Lemma exhausted_task_never_runs_witness :
  let t := new_task 0 "probe" HEALTH_CHECK
             (mkArgs None None 60 true None None 0 0 None ∅) in
  _monitoring_loop [mkIter (fun _ => 100) (fun _ => passing)] (add_task t ∅)
    !! "probe" = Some t.
Proof.
  apply (exhausted_task_never_runs [mkIter (fun _ => 100) (fun _ => passing)]
           (add_task (new_task 0 "probe" HEALTH_CHECK
                        (mkArgs None None 60 true None None 0 0 None ∅)) ∅)
           "probe"); [reflexivity | vm_compute; discriminate].
Defined.

(** *** Statistics *)

Lemma filter_length_le {A} (f g : A -> bool) (l : list A) :
  (forall x, f x = true -> g x = true) ->
  (length (List.filter f l) <= length (List.filter g l))%nat.
Proof.
  intros Hfg. induction l as [|x l IH]; simpl; [done |].
  destruct (f x) eqn:Hf.
  - rewrite (Hfg x Hf). simpl. lia.
  - destruct (g x); simpl; lia.
Qed.

Lemma count_tasks_le_size cond (tasks : tasks_t) :
  (count_tasks cond tasks <= size tasks)%nat.
Proof.
  unfold count_tasks. rewrite <- length_map_to_list.
  induction (map_to_list tasks) as [|x l IH]; simpl; [done |].
  destruct (cond x); simpl; lia.
Qed.

(** X4. In the statistics, the tasks the loop would select are no more
    than the due tasks, the due tasks no more than the enabled ones, and
    the enabled and the healthy ones no more than all tasks. *)
Theorem service_stats_ordered running n (tasks : tasks_t) it :
  let stats := get_service_stats running n (due_clock it) tasks in
  (length (due_tasks it tasks) <= s_due_tasks stats)%nat
  /\ (s_due_tasks stats <= s_enabled_tasks stats)%nat
  /\ (s_enabled_tasks stats <= s_total_tasks stats)%nat
  /\ (s_healthy_tasks stats <= s_total_tasks stats)%nat.
Proof.
  simpl. repeat split.
  - apply filter_length_le. intros [k t]. unfold selected. simpl.
    intros H. apply andb_true_iff in H. tauto.
  - apply filter_length_le. intros [k t]. unfold is_due. simpl.
    intros H. apply andb_true_iff in H. tauto.
  - apply count_tasks_le_size.
  - apply count_tasks_le_size.
Qed.

(** *** A callback that raises *)

Lemma execute_task_callback_raises e t cb :
  body_raises e = false -> callback t = Some cb -> cb true = true ->
  _execute_task e t
  = task_of (mark_error (now_error e)
               (task_of (mark_success (now_last_run e) (now_schedule e) t))).
Proof.
  unfold _execute_task. intros -> Hcb Hraise.
  pose proof (mark_success_resets (now_last_run e) (now_schedule e) t)
    as (_ & _ & _ & _ & Hc).
  destruct (mark_success _ _ t) as [t1 | t1]; simpl in *; [| done].
  by rewrite Hc, Hcb, Hraise.
Qed.

Lemma run_executions_config es t : same_config t (run_executions es t).
Proof.
  unfold run_executions. revert t.
  induction es as [|e es IH]; intros t; simpl; [done |].
  eapply same_config_trans; [apply execute_task_config | apply IH].
Qed.

Lemma execute_task_callback_keeps e t cb :
  body_raises e = false -> callback t = Some cb -> cb true = true ->
  1 < max_errors t ->
  error_count (_execute_task e t) = 1
  /\ enabled (_execute_task e t) = enabled t.
Proof.
  intros He Hcb Hraise Hmax.
  rewrite (execute_task_callback_raises e t cb) by done.
  pose proof (mark_success_resets (now_last_run e) (now_schedule e) t)
    as (Hec & _ & _ & Hen & _).
  pose proof (mark_success_config (now_last_run e) (now_schedule e) t)
    as (_ & _ & _ & _ & _ & Hm & _).
  split; [by rewrite mark_error_count, Hec |].
  destruct (mark_error_retries (now_error e)
              (task_of (mark_success (now_last_run e) (now_schedule e) t)))
    as [-> _]; [lia | done].
Qed.

(** X5. When the body of a task returns and its callback raises, the
    execution is first marked a success and then an error: the error count
    ends at 1 whatever it was. So with [max_errors] above 1 such a task is
    never disabled, however often this happens in a row; with [max_errors]
    at most 1 the first such execution disables it. *)
Theorem raising_callback_never_disables :
  (forall e t cb,
      body_raises e = false -> callback t = Some cb -> cb true = true ->
      error_count (_execute_task e t) = 1
      /\ last_run (_execute_task e t) = Some (now_last_run e)
      /\ (max_errors t <= 1 -> enabled (_execute_task e t) = false))
  /\ (forall es t cb,
      callback t = Some cb -> cb true = true -> 1 < max_errors t ->
      Forall (fun e => body_raises e = false) es -> es <> [] ->
      error_count (run_executions es t) = 1
      /\ enabled (run_executions es t) = enabled t).
Proof.
  split.
  - intros e t cb He Hcb Hraise.
    rewrite (execute_task_callback_raises e t cb) by done.
    pose proof (mark_success_resets (now_last_run e) (now_schedule e) t)
      as (Hec & _ & Hlast & _).
    pose proof (mark_success_config (now_last_run e) (now_schedule e) t)
      as (_ & _ & _ & _ & _ & Hm & _).
    split; [by rewrite mark_error_count, Hec |].
    split; [by rewrite mark_error_last_run |].
    intros Hmax. apply mark_error_disables. lia.
  - intros es t cb Hcb Hraise Hmax Hes Hne.
    assert (forall es', Forall (fun e => body_raises e = false) es' ->
              enabled (run_executions es' t) = enabled t) as Hkeep.
    { induction es' as [|e' es' IH] using rev_ind; [done |].
      intros Hes'. apply Forall_app in Hes' as [Hes' He']. apply Forall_inv in He'.
      unfold run_executions. rewrite foldl_app. simpl.
      fold (run_executions es' t).
      destruct (run_executions_config es' t) as (_ & _ & _ & _ & _ & Hm & Hc & _).
      destruct (execute_task_callback_keeps e' (run_executions es' t) cb)
        as [_ ->]; [done | congruence | done | lia |]. by apply IH. }
    split; [| by apply Hkeep].
    destruct es as [|e es _] using rev_ind; [done |].
    apply Forall_app in Hes as [Hes He]. apply Forall_inv in He.
    unfold run_executions. rewrite foldl_app. simpl.
    fold (run_executions es t).
    destruct (run_executions_config es t) as (_ & _ & _ & _ & _ & Hm & Hc & _).
    by destruct (execute_task_callback_keeps e (run_executions es t) cb)
      as [-> _]; [done | congruence | done | lia |].
Qed.

Lemma raising_callback_never_disables_witness :
  let t := new_task 0 "noisy" HEALTH_CHECK
             (mkArgs None None 60 true None None 0 3 (Some (fun _ => true)) ∅) in
  error_count (run_executions [passing; passing; passing; passing; passing] t) = 1
  /\ enabled (run_executions [passing; passing; passing; passing; passing] t)
     = true.
Proof.
  apply (proj2 raising_callback_never_disables
           [passing; passing; passing; passing; passing]
           (new_task 0 "noisy" HEALTH_CHECK
              (mkArgs None None 60 true None None 0 3 (Some (fun _ => true)) ∅))
           (fun _ => true)); try reflexivity.
  - repeat constructor.
  - discriminate.
Defined.

(** *** When a task is due again *)

(** X6. After an execution that is marked a success, and after a failed
    one that leaves the task within its error budget, the task is due
    again exactly at the clock readings that are no earlier than the
    reading of the rescheduling plus the interval, provided that sum is a
    [datetime]. When it is not, a failed execution within the budget
    leaves the task due whenever it was: the rescheduling raises and
    [next_run] stays. *)
Theorem due_again_after_interval :
  (forall e t now,
      body_raises e = false -> callback_returns t ->
      representable (now_schedule e) (interval_seconds t) = true ->
      is_due now (_execute_task e t)
      = enabled t
        && (now_schedule e + timedelta_seconds (interval_seconds t) <=? now))
  /\ (forall e t now,
      body_raises e = true -> error_count t + 1 < max_errors t ->
      representable (now_error e) (interval_seconds t) = true ->
      is_due now (_execute_task e t)
      = enabled t
        && (now_error e + timedelta_seconds (interval_seconds t) <=? now))
  /\ (forall e t now,
      body_raises e = true -> error_count t + 1 < max_errors t ->
      representable (now_error e) (interval_seconds t) = false ->
      is_due now (_execute_task e t) = is_due now t).
Proof.
  split; [| split].
  - intros e t now He Hcb Hrep. rewrite execute_task_success by done.
    unfold is_due.
    destruct (mark_success_resets (now_last_run e) (now_schedule e) t)
      as (_ & -> & _ & -> & _). by rewrite Hrep.
  - intros e t now He Hlt Hrep. rewrite execute_task_failure by done.
    unfold is_due.
    destruct (mark_error_retries (now_error e) t Hlt) as [-> ->].
    by rewrite Hrep.
  - intros e t now He Hlt Hrep. rewrite execute_task_failure by done.
    unfold is_due.
    destruct (mark_error_retries (now_error e) t Hlt) as [-> ->].
    by rewrite Hrep.
Qed.

Lemma due_again_after_interval_witness :
  is_due (20 + 60 * 1000000 - 1) (_execute_task passing sample_task) = false
  /\ is_due (20 + 60 * 1000000) (_execute_task passing sample_task) = true
  /\ is_due (30 + 60 * 1000000 - 1) (_execute_task failing sample_task) = false
  /\ is_due 0 (_execute_task failing far_task) = true.
Proof.
  destruct due_again_after_interval as (Hok & Hfail & Hfar).
  split; [rewrite (Hok passing sample_task);
            [reflexivity | reflexivity | exact I | reflexivity] |].
  split; [rewrite (Hok passing sample_task);
            [reflexivity | reflexivity | exact I | reflexivity] |].
  split; [rewrite (Hfail failing sample_task); reflexivity |].
  rewrite (Hfar failing far_task); reflexivity.
Defined.

(** *** The task table *)

(** X7. [add_task] stores the task under its id, replacing without notice
    a task that had the id, so the number of tasks grows only for a new
    id; [remove_task] deletes the id and does nothing for an unknown id;
    neither touches the other ids. *)
Theorem task_table_round_trips (tasks : tasks_t) t id :
  get_task (task_id t) (add_task t tasks) = Some t
  /\ (id <> task_id t -> get_task id (add_task t tasks) = get_task id tasks)
  /\ size (add_task t tasks)
     = (if decide (is_Some (get_task (task_id t) tasks))
        then size tasks else S (size tasks))
  /\ get_task id (remove_task id tasks) = None
  /\ (get_task id tasks = None -> remove_task id tasks = tasks)
  /\ (id <> task_id t ->
      get_task (task_id t) (remove_task id (add_task t tasks)) = Some t)
  /\ remove_task (task_id t) (add_task t (remove_task (task_id t) tasks))
     = remove_task (task_id t) tasks.
Proof.
  unfold get_task, add_task, remove_task.
  split; [apply lookup_insert_eq |].
  split; [intros Hne; by apply lookup_insert_ne |].
  split.
  { case_decide as Hin.
    - destruct Hin as [t0 Ht0]. by eapply map_size_insert_Some.
    - apply map_size_insert_None. by apply eq_None_not_Some. }
  split.
  { case_decide as Hin; [apply lookup_delete_eq | by apply eq_None_not_Some]. }
  split.
  { intros Hnone. case_decide as Hin; [| done].
    rewrite Hnone in Hin. by destruct Hin. }
  split.
  { intros Hne. case_decide as Hin.
    - rewrite lookup_delete_ne by done. apply lookup_insert_eq.
    - apply lookup_insert_eq. }
  rewrite (decide_True (P := is_Some (<[task_id t := t]> _ !! task_id t)))
    by (rewrite lookup_insert_eq; eauto).
  rewrite delete_insert_eq.
  case_decide as Hin.
  - by rewrite delete_delete_eq.
  - by rewrite delete_id by (by apply eq_None_not_Some).
Qed.

Lemma task_table_round_trips_witness :
  get_task "other" (add_task sample_task ∅) = get_task "other" ∅
  /\ get_task (task_id sample_task) (remove_task "other" (add_task sample_task ∅))
     = Some sample_task.
Proof.
  destruct (task_table_round_trips ∅ sample_task "other")
    as (_ & Hother & _ & _ & _ & Hkept & _).
  split; [apply Hother | apply Hkept]; vm_compute; discriminate.
Defined.

End SchedulerFacts.

(** ** Alarm escalation *)

Module AlarmFacts.
Import AlarmModel Simulation.

Lemma escalate_level a : escalation_level (escalate a) = escalation_level a + 1.
Proof. by destruct a as [? ? ? [] ? ? ? ? ?]. Qed.

Lemma escalate_severity a : severity (escalate a) = promoted (severity a).
Proof. by destruct a as [? ? ? [] ? ? ? ? ?]. Qed.

Lemma escalate_frame a :
  device_id (escalate a) = device_id a
  /\ device_type (escalate a) = device_type a
  /\ alarm_type (escalate a) = alarm_type a
  /\ status (escalate a) = status a
  /\ message (escalate a) = message a
  /\ timestamp (escalate a) = timestamp a.
Proof. by destruct a as [? ? ? [] ? ? ? ? ?]. Qed.

Lemma escalate_iter_level n a :
  escalation_level (Nat.iter n escalate a) = escalation_level a + Z.of_nat n.
Proof.
  induction n as [|n IH]; simpl; [lia |].
  rewrite escalate_level, IH. lia.
Qed.

Lemma escalate_iter_critical n a :
  severity a = CRITICAL -> severity (Nat.iter n escalate a) = CRITICAL.
Proof.
  intros Ha. induction n as [|n IH]; simpl; [done |].
  by rewrite escalate_severity, IH.
Qed.

(** C8. Each [escalate()] adds exactly one to [escalation_level] and moves
    the severity one step up info, warning, minor, major, critical, except
    that CRITICAL stays CRITICAL; escalating a CRITICAL alarm [n] times
    leaves it CRITICAL with [escalation_level] raised by [n]. *)
Theorem escalation_ladder_cap :
  (forall a, escalation_level (escalate a) = escalation_level a + 1)
  /\ (forall a, severity (escalate a) = promoted (severity a))
  /\ (forall a, severity a <> CRITICAL -> severity (escalate a) <> severity a)
  /\ (forall n a, severity a = CRITICAL ->
        severity (Nat.iter n escalate a) = CRITICAL
        /\ escalation_level (Nat.iter n escalate a)
           = escalation_level a + Z.of_nat n).
Proof.
  split; [apply escalate_level |].
  split; [apply escalate_severity |].
  split.
  - intros a Ha. rewrite escalate_severity. by destruct (severity a).
  - intros n a Ha. split; [by apply escalate_iter_critical | apply escalate_iter_level].
Qed.

Lemma escalation_ladder_cap_witness :
  severity (escalate (sample_alarm MINOR 0)) <> MINOR
  /\ severity (Nat.iter 4 escalate (sample_alarm CRITICAL 2)) = CRITICAL
  /\ escalation_level (Nat.iter 4 escalate (sample_alarm CRITICAL 2)) = 6.
Proof.
  destruct escalation_ladder_cap as (_ & _ & Hup & Hcap).
  split; [apply (Hup (sample_alarm MINOR 0)); discriminate |].
  apply (Hcap 4%nat (sample_alarm CRITICAL 2)). reflexivity.
Defined.

(** *** Escalation and the severity weight *)

Lemma escalate_weight a :
  severity_weight (escalate a) = Z.min 5 (severity_weight a + 1).
Proof. by destruct a as [? ? ? [] ? ? ? ? ?]. Qed.

Lemma escalate_iter_weight n a :
  severity_weight (Nat.iter n escalate a)
  = Z.min 5 (severity_weight a + Z.of_nat n).
Proof.
  induction n as [|n IH]; simpl.
  - destruct a as [? ? ? [] ? ? ? ? ?]; done.
  - rewrite escalate_weight, IH. lia.
Qed.

Lemma weight_critical a : severity_weight a = 5 -> severity a = CRITICAL.
Proof. unfold severity_weight. by destruct (severity a). Qed.

(** X8. [escalate] raises the severity weight by one, up to the weight 5
    of CRITICAL, so [n] escalations raise it by [n] up to 5: whatever the
    severity of an alarm, four escalations make it CRITICAL, and it stays
    major or critical from the third on. *)
Theorem escalation_reaches_critical :
  (forall n a,
      severity_weight (Nat.iter n escalate a)
      = Z.min 5 (severity_weight a + Z.of_nat n))
  /\ (forall n a, (4 <= n)%nat -> severity (Nat.iter n escalate a) = CRITICAL)
  /\ (forall n a, (3 <= n)%nat -> is_major (Nat.iter n escalate a) = true).
Proof.
  split; [apply escalate_iter_weight |].
  split.
  - intros n a Hn. apply weight_critical. rewrite escalate_iter_weight.
    destruct a as [? ? ? [] ? ? ? ? ?]; unfold severity_weight; simpl; lia.
  - intros n a Hn. unfold is_major.
    pose proof (escalate_iter_weight n a) as Hw.
    assert (4 <= severity_weight (Nat.iter n escalate a)) as Hge.
    { rewrite Hw. destruct a as [? ? ? [] ? ? ? ? ?];
        unfold severity_weight; simpl; lia. }
    apply bool_decide_eq_true. unfold severity_weight in Hge.
    destruct (severity (Nat.iter n escalate a)); try lia; set_solver.
Qed.

Lemma escalation_reaches_critical_witness :
  severity (Nat.iter 4 escalate (sample_alarm INFO 0)) = CRITICAL
  /\ is_major (Nat.iter 3 escalate (sample_alarm INFO 0)) = true.
Proof.
  destruct escalation_reaches_critical as (_ & Hfour & Hthree).
  split; [apply (Hfour 4%nat); lia | apply (Hthree 3%nat); lia].
Defined.

(** *** Acknowledging and clearing *)

(** X9. Acknowledging moves an ACTIVE alarm to ACKNOWLEDGED and leaves
    any other status, and the [is_active] flag, as they are; clearing
    always ends in CLEARED with [is_active] off. After either the alarm no
    longer requires immediate attention. An alarm that is cleared and
    acknowledged, in either order, is CLEARED with the same flags:
    acknowledging a cleared alarm does not reopen it. Neither changes the
    severity. *)
Theorem acknowledge_clear_lifecycle u v n1 n2 st :
  status (core (acknowledge u n1 st))
    = (if decide (status (core st) = ACTIVE) then ACKNOWLEDGED
       else status (core st))
  /\ is_active (acknowledge u n1 st) = is_active st
  /\ status (core (clear v n2 st)) = CLEARED
  /\ is_active (clear v n2 st) = false
  /\ requires_immediate_attention (acknowledge u n1 st) = false
  /\ requires_immediate_attention (clear v n2 st) = false
  /\ status (core (acknowledge u n1 (clear v n2 st))) = CLEARED
  /\ status (core (clear v n2 (acknowledge u n1 st))) = CLEARED
  /\ (is_active (acknowledge u n1 (clear v n2 st)),
      is_acknowledged (acknowledge u n1 (clear v n2 st)),
      is_cleared (acknowledge u n1 (clear v n2 st)))
     = (is_active (clear v n2 (acknowledge u n1 st)),
        is_acknowledged (clear v n2 (acknowledge u n1 st)),
        is_cleared (clear v n2 (acknowledge u n1 st)))
  /\ severity (core (acknowledge u n1 st)) = severity (core st)
  /\ severity (core (clear v n2 st)) = severity (core st).
Proof.
  unfold acknowledge, clear, requires_immediate_attention. simpl.
  destruct (decide (status (core st) = ACTIVE)); simpl;
    rewrite ?andb_false_r; repeat split; done.
Qed.

End AlarmFacts.

(** ** Threshold check and alarm writer *)

Module ThresholdFacts.
Import AlarmModel ThresholdEngine Simulation.

(** *** Counting ACTIVE alarms *)

Lemma active_count_app data l1 l2 :
  active_count data (l1 ++ l2) = (active_count data l1 + active_count data l2)%nat.
Proof. unfold active_count. by rewrite List.filter_app, length_app. Qed.

Lemma active_count_cons data a l :
  active_count data (a :: l)
  = ((if bool_decide (same_alarm data a) then 1 else 0) + active_count data l)%nat.
Proof. unfold active_count. simpl. by destruct (bool_decide _). Qed.

Lemma active_count_insert data (l : list Alarm) i a a' :
  l !! i = Some a -> (same_alarm data a' <-> same_alarm data a) ->
  active_count data (<[i := a']> l) = active_count data l.
Proof.
  intros Hi Hsame.
  rewrite insert_take_drop by (by eapply lookup_lt_Some).
  rewrite <- (take_drop_middle l i a Hi) at 3.
  rewrite !active_count_app, !active_count_cons.
  by rewrite (bool_decide_ext _ _ Hsame).
Qed.

Lemma active_count_none data (l : list Alarm) :
  Forall (fun a => ~ same_alarm data a) l -> active_count data l = 0%nat.
Proof.
  induction 1 as [|a l Ha _ IH]; [done |].
  rewrite active_count_cons, IH. by rewrite bool_decide_eq_false_2.
Qed.

Lemma commit_before_query db : commit (before_query db) = commit db.
Proof.
  unfold before_query, commit, flush.
  destruct (autoflush db); simpl; [apply app_nil_r | done].
Qed.

(** *** The writer *)

Lemma updated_key p utcnow data sev tt value a :
  device_id (updated p utcnow data sev tt value a) = device_id a
  /\ device_type (updated p utcnow data sev tt value a) = device_type a
  /\ alarm_type (updated p utcnow data sev tt value a) = alarm_type a
  /\ status (updated p utcnow data sev tt value a) = status a
  /\ additional_data (updated p utcnow data sev tt value a) = additional_data a
  /\ escalation_level (updated p utcnow data sev tt value a) = escalation_level a.
Proof. unfold updated, assign. by repeat case_match. Qed.

Lemma updated_same p utcnow data sev tt value a d :
  same_alarm d (updated p utcnow data sev tt value a) <-> same_alarm d a.
Proof.
  unfold same_alarm.
  by destruct (updated_key p utcnow data sev tt value a) as (-> & -> & -> & -> & _).
Qed.

Lemma rewritten_refl a : rewritten a a.
Proof. by repeat split. Qed.

Lemma rewritten_trans a b c : rewritten a b -> rewritten b c -> rewritten a c.
Proof.
  unfold rewritten.
  intros (? & ? & ? & Hs & ? & ? & Hab) (? & ? & ? & ? & ? & ? & Hbc).
  repeat split; try congruence.
  intros Hna. rewrite Hbc by congruence. by apply Hab.
Qed.

Lemma updated_rewritten p utcnow data sev tt value a :
  status a = ACTIVE -> rewritten a (updated p utcnow data sev tt value a).
Proof.
  intros Ha.
  destruct (updated_key p utcnow data sev tt value a) as (? & ? & ? & ? & ? & ?).
  repeat split; done.
Qed.

(** The two ways the writer returns: the update branch rewrites the first
    ACTIVE alarm of the key that the query sees, where it stands; the
    create branch hands one alarm to [db.add]. *)
Lemma create_threshold_alarm_cases p utcnow db data sev tt value threshold db' :
  _create_threshold_alarm p utcnow db data sev tt value threshold = Some db' ->
  (exists i a,
      list_find (same_alarm data) (rows (before_query db)) = Some (i, a)
      /\ db' = mkSession
                 (<[i := updated p utcnow data sev tt value a]>
                    (rows (before_query db)))
                 (pending (before_query db)) (autoflush (before_query db)))
  \/ (list_find (same_alarm data) (rows (before_query db)) = None
      /\ db' = mkSession (rows (before_query db))
                 (pending (before_query db)
                  ++ [created utcnow data sev tt value threshold])
                 (autoflush (before_query db))).
Proof.
  unfold _create_threshold_alarm.
  destruct (filter_resolves p); [| done]. cbv zeta.
  destruct (list_find (same_alarm data) (rows (before_query db)))
    as [[i a]|] eqn:Hfind.
  - destruct (message_resolves p); [| done].
    intros [= <-]. left. by exists i, a.
  - destruct (message_resolves p && constructor_accepts p); [| done].
    intros [= <-]. by right.
Qed.

Lemma Alarm_lacks_device_id p :
  "device_id"%string ∉ Base_declares p -> Alarm_has p "device_id" = false.
Proof.
  intros Hbase. unfold Alarm_has. apply bool_decide_eq_false.
  rewrite elem_of_app. intros [Hin | Hin]; [| done].
  revert Hin. apply (bool_decide_unpack _). vm_compute. exact I.
Qed.

Lemma create_threshold_alarm_raises p utcnow db data sev tt value threshold :
  "device_id"%string ∉ Base_declares p ->
  _create_threshold_alarm p utcnow db data sev tt value threshold = None.
Proof.
  intros Hbase. unfold _create_threshold_alarm, filter_resolves.
  by rewrite (Alarm_lacks_device_id p Hbase).
Qed.

(** *** One sample *)

(** What a sample can do to the session: nothing, or one call of the
    writer with its value. *)
Lemma check_sample_cases {St} (writer : Writer St) (table : threshold_table)
    db data db' :
  check_sample writer table db data = Some db' ->
  db' = db
  \/ exists sev tt threshold, writer db data sev tt (pd_value data) threshold = Some db'.
Proof.
  unfold check_sample.
  destruct (table !! pd_metric_type data) as [th|]; [| intros [= <-]; by left].
  simpl. destruct (_ || _).
  { destruct (th !! "critical") as [c|]; simpl; [| discriminate].
    intros Hw. right. by exists CRITICAL, "critical"%string, c. }
  destruct (_ || _).
  { destruct (th !! "warning") as [w|]; simpl; [| discriminate].
    intros Hw. right. by exists WARNING, "warning"%string, w. }
  intros [= <-]. by left.
Qed.

(** C2. The check tests the critical bound first. A sample that breaches
    it, at or above [critical] or at or below [critical_low], is passed to
    the writer once, as CRITICAL with the critical threshold, whatever its
    value is to the warning bound: the result of the check is the result
    of that call, and a writer that records its calls records this one and
    no WARNING. Only a sample that does not breach the critical bound is
    tested against the warning bound, and passed as WARNING when it
    breaches that; a sample that breaches neither is not passed at all. *)
Theorem critical_before_warning (St : Type) (writer : Writer St)
    (table : threshold_table) (db : St) data th :
  table !! pd_metric_type data = Some th ->
  let value := pd_value data in
  let critical :=
    ge_float value (get_or th "critical" infinity)
    || le_float value (get_or th "critical_low" neg_infinity) in
  let warning :=
    ge_float value (get_or th "warning" infinity)
    || le_float value (get_or th "warning_low" neg_infinity) in
  (critical = true -> forall c, th !! "critical" = Some c ->
     check_sample writer table db data = writer db data CRITICAL "critical" value c
     /\ check_sample recorder table [] data
        = Some [(CRITICAL, "critical"%string, value, c)])
  /\ (critical = false -> warning = true -> forall w, th !! "warning" = Some w ->
     check_sample writer table db data = writer db data WARNING "warning" value w
     /\ check_sample recorder table [] data
        = Some [(WARNING, "warning"%string, value, w)])
  /\ (critical = false -> warning = false ->
     check_sample writer table db data = Some db
     /\ check_sample recorder table [] data = Some []).
Proof.
  intros Hth value critical warning. subst value critical warning.
  unfold check_sample. rewrite Hth. cbv zeta.
  split; [| split].
  - intros -> c ->. done.
  - intros -> -> w ->. done.
  - intros -> ->. done.
Qed.

Lemma critical_before_warning_witness :
  check_sample recorder thresholds [] (cpu_sample 97 0)
  = Some [(CRITICAL, "critical"%string, 97%float, 95%float)]
  /\ check_sample recorder thresholds [] (cpu_sample 90 0)
     = Some [(WARNING, "warning"%string, 90%float, 80%float)].
Proof.
  split.
  - apply (critical_before_warning (list Call) recorder thresholds []
             (cpu_sample 97 0) (bounds 80 95) eq_refl); reflexivity.
  - apply (critical_before_warning (list Call) recorder thresholds []
             (cpu_sample 90 0) (bounds 80 95) eq_refl); reflexivity.
Defined.

(** *** A metric without thresholds *)

Lemma check_sample_absent {St} (writer : Writer St) (table : threshold_table)
    db data :
  table !! pd_metric_type data = None -> check_sample writer table db data = Some db.
Proof. unfold check_sample. by intros ->. Qed.

Lemma check_loop_absent {St} (writer_at : nat -> Writer St) i
    (table : threshold_table) db recent :
  Forall (fun d => table !! pd_metric_type d = None) recent ->
  check_loop writer_at i table db recent = Some db.
Proof.
  intros Hall. revert i.
  induction Hall as [|d recent Hd _ IH]; intros i; simpl; [done |].
  rewrite check_sample_absent by done. simpl. apply IH.
Qed.

(** C7. A sample whose metric type has no entry in the threshold table
    leaves the session as it is, whatever the writer is: it is not called,
    no row is rewritten and nothing is added; the loop goes on as if the
    sample were not there, and a pass whose recent samples all lack an
    entry leaves the alarms table unchanged. *)
Theorem no_threshold_no_effect :
  (forall (St : Type) (writer : Writer St) (table : threshold_table) db data,
      table !! pd_metric_type data = None ->
      check_sample writer table db data = Some db)
  /\ (forall (St : Type) (writer_at : nat -> Writer St) i (table : threshold_table)
             db data rest,
      table !! pd_metric_type data = None ->
      check_loop writer_at i table db (data :: rest)
      = check_loop writer_at (S i) table db rest)
  /\ (forall p utcnow clock (table : threshold_table) perf alarms,
      Forall (fun d => table !! pd_metric_type d = None) (recent_data utcnow perf) ->
      _check_thresholds p utcnow clock table perf alarms = alarms).
Proof.
  split; [intros St; apply check_sample_absent |].
  split.
  - intros St writer_at i table db data rest Hnone. simpl.
    by rewrite check_sample_absent.
  - intros p utcnow clock table perf alarms Hall. unfold _check_thresholds.
    destruct (async_session p); [| done].
    rewrite check_loop_absent by done. unfold commit. simpl.
    apply app_nil_r.
Qed.

Lemma no_threshold_no_effect_witness :
  check_sample (_create_threshold_alarm full_platform 500) thresholds
    (get_db_session [stored_alarm]) uptime_sample
  = Some (get_db_session [stored_alarm])
  /\ check_loop (fun _ => recorder) 0 thresholds [] [uptime_sample; cpu_sample 97 0]
     = check_loop (fun _ => recorder) 1 thresholds [] [cpu_sample 97 0]
  /\ _check_thresholds full_platform 500 (fun _ => 500) thresholds
       [uptime_sample; uptime_sample] [stored_alarm]
     = [stored_alarm].
Proof.
  destruct no_threshold_no_effect as (Hsample & Hloop & Hpass).
  split; [apply Hsample; reflexivity |].
  split; [apply (Hloop _ (fun _ => recorder)); reflexivity |].
  apply Hpass.
  change (recent_data 500 [uptime_sample; uptime_sample])
    with [uptime_sample; uptime_sample].
  do 2 (constructor; [reflexivity |]). constructor.
Defined.

(** *** The writer against the classes of the repository *)

Lemma check_loop_silent {St} (writer_at : nat -> Writer St)
    (table : threshold_table) recent :
  (forall i db data sev tt value threshold,
      writer_at i db data sev tt value threshold = None) ->
  forall i db db', check_loop writer_at i table db recent = Some db' -> db' = db.
Proof.
  intros Hnone.
  induction recent as [|data rest IH]; intros i db db'; simpl.
  - by intros [= <-].
  - destruct (check_sample (writer_at i) table db data) as [db1|] eqn:Hstep;
      simpl; [| discriminate].
    destruct (check_sample_cases _ _ _ _ _ Hstep)
      as [-> | (sev & tt & threshold & Hw)]; [apply IH |].
    by rewrite Hnone in Hw.
Qed.

(** C1, at its failing input. [models/alarm.py] declares no [device_id],
    so unless [Base] declares it the first argument of the writer's filter,
    [Alarm.device_id], raises [AttributeError]: whatever the session, the
    sample and the severity, the writer returns nothing, and neither finds,
    updates nor creates an alarm. A pass then never changes the alarms
    table. *)
Theorem threshold_writer_raises (p : Platform) :
  "device_id"%string ∉ Base_declares p ->
  (forall utcnow db data sev tt value threshold,
      _create_threshold_alarm p utcnow db data sev tt value threshold = None)
  /\ (forall utcnow clock (table : threshold_table) perf alarms,
      _check_thresholds p utcnow clock table perf alarms = alarms).
Proof.
  intros Hbase.
  assert (forall utcnow db data sev tt value threshold,
            _create_threshold_alarm p utcnow db data sev tt value threshold = None)
    as Hraise.
  { intros. by apply create_threshold_alarm_raises. }
  split; [done |].
  intros utcnow clock table perf alarms. unfold _check_thresholds.
  destruct (async_session p); [| done].
  destruct (check_loop _ 0 table (get_db_session alarms) (recent_data utcnow perf))
    as [db|] eqn:Hloop; [| done].
  apply check_loop_silent in Hloop as ->; [| intros; apply Hraise].
  unfold commit. simpl. apply app_nil_r.
Qed.

Lemma threshold_writer_raises_witness :
  _create_threshold_alarm plain_platform 500 (get_db_session [stored_alarm])
    (cpu_sample 96 0) CRITICAL "critical" 96 95 = None
  /\ _check_thresholds (mkPlatform (Base_declares plain_platform) true) 500
       (fun _ => 500) thresholds [cpu_sample 96 0; cpu_sample 96 120000000]
       [stored_alarm]
     = [stored_alarm].
Proof.
  split.
  - apply (threshold_writer_raises plain_platform).
    apply (bool_decide_unpack _). vm_compute. exact I.
  - apply (threshold_writer_raises (mkPlatform (Base_declares plain_platform) true)).
    apply (bool_decide_unpack _). vm_compute. exact I.
Defined.

(** *** What a pass keeps *)

Lemma create_threshold_alarm_keeps p utcnow db data sev tt value threshold db' :
  _create_threshold_alarm p utcnow db data sev tt value threshold = Some db' ->
  (forall i a, commit db !! i = Some a ->
     exists a', commit db' !! i = Some a' /\ rewritten a a')
  /\ (length (commit db) <= length (commit db') <= S (length (commit db)))%nat.
Proof.
  intros Hw.
  destruct (create_threshold_alarm_cases _ _ _ _ _ _ _ _ _ Hw)
    as [(j & x & Hfind & ->) | (Hfind & ->)];
    rewrite <- (commit_before_query db); unfold commit; simpl.
  - apply list_find_Some in Hfind as (Hj & Hx & _).
    rewrite <- insert_app_l by (by eapply lookup_lt_Some).
    split; [| rewrite length_insert; lia].
    intros i a Hi. rewrite list_lookup_insert. case_decide as Hij.
    + destruct Hij as [-> _].
      rewrite (lookup_app_l_Some _ _ _ _ Hj) in Hi. injection Hi as <-.
      eexists. split; [done |]. apply updated_rewritten. apply Hx.
    + exists a. split; [done | apply rewritten_refl].
  - rewrite app_assoc.
    split; [| rewrite (length_app (_ ++ _)); simpl; lia].
    intros i a Hi. exists a. split; [| apply rewritten_refl].
    by apply lookup_app_l_Some.
Qed.

Lemma check_sample_keeps p utcnow (table : threshold_table) db data db' :
  check_sample (_create_threshold_alarm p utcnow) table db data = Some db' ->
  (forall i a, commit db !! i = Some a ->
     exists a', commit db' !! i = Some a' /\ rewritten a a')
  /\ (length (commit db) <= length (commit db') <= S (length (commit db)))%nat.
Proof.
  intros Hstep.
  destruct (check_sample_cases _ _ _ _ _ Hstep)
    as [-> | (sev & tt & threshold & Hw)].
  - split; [| lia]. intros i a Hi. exists a. split; [done | apply rewritten_refl].
  - by eapply create_threshold_alarm_keeps.
Qed.

Lemma check_loop_keeps p clock (table : threshold_table) recent :
  forall i db db',
    check_loop (fun i => _create_threshold_alarm p (clock i)) i table db recent
    = Some db' ->
    (forall j a, commit db !! j = Some a ->
       exists a', commit db' !! j = Some a' /\ rewritten a a')
    /\ (length (commit db) <= length (commit db')
        <= length (commit db) + length recent)%nat.
Proof.
  induction recent as [|data rest IH]; intros i db db'; simpl.
  - intros [= <-]. split; [| lia].
    intros j a Hj. exists a. split; [done | apply rewritten_refl].
  - destruct (check_sample (_create_threshold_alarm p (clock i)) table db data)
      as [db1|] eqn:Hstep; simpl; [| discriminate].
    intros Hloop.
    destruct (check_sample_keeps _ _ _ _ _ _ Hstep) as [Hk1 Hl1].
    destruct (IH _ _ _ Hloop) as [Hk2 Hl2].
    split; [| lia].
    intros j a Hj. destruct (Hk1 j a Hj) as (a1 & Hj1 & Hr1).
    destruct (Hk2 j a1 Hj1) as (a2 & Hj2 & Hr2).
    exists a2. split; [done | by eapply rewritten_trans].
Qed.

(** X10. A threshold pass never removes or clears an alarm, on any
    platform. Every alarm of the table keeps its place, key, status,
    additional data and escalation level; an alarm that is not ACTIVE is
    untouched; and the table grows by at most one alarm for each recent
    sample. *)
Theorem threshold_pass_never_clears p utcnow clock (table : threshold_table)
    perf alarms :
  let after := _check_thresholds p utcnow clock table perf alarms in
  (forall i a, alarms !! i = Some a ->
     exists a', after !! i = Some a' /\ rewritten a a')
  /\ (length alarms <= length after
      <= length alarms + length (recent_data utcnow perf))%nat.
Proof.
  simpl. unfold _check_thresholds.
  assert ((forall i a, alarms !! i = Some a ->
             exists a', alarms !! i = Some a' /\ rewritten a a')
          /\ (length alarms <= length alarms
              <= length alarms + length (recent_data utcnow perf))%nat) as Hsame.
  { split; [| lia]. intros i a Hi. exists a. split; [done | apply rewritten_refl]. }
  destruct (async_session p); [| done].
  destruct (check_loop _ 0 table (get_db_session alarms) (recent_data utcnow perf))
    as [db|] eqn:Hloop; [| done].
  destruct (check_loop_keeps _ _ _ _ _ _ _ Hloop) as [Hk Hl].
  unfold commit at 1 3 4 in Hl. simpl in Hl. rewrite app_nil_r in Hl.
  split; [| done].
  intros i a Hi. apply Hk. unfold commit. simpl. by rewrite app_nil_r.
Qed.

(** *** A table entry with lower bounds only *)

Lemma check_loop_raises {St} (writer_at : nat -> Writer St)
    (table : threshold_table) recent d :
  In d recent ->
  (forall writer db, check_sample (St := St) writer table db d = None) ->
  forall i db, check_loop writer_at i table db recent = None.
Proof.
  intros Hin Hd.
  induction recent as [|data rest IH]; intros i db; [done |].
  simpl. destruct Hin as [-> | Hin].
  - by rewrite Hd.
  - destruct (check_sample (writer_at i) table db data); simpl; [by apply IH | done].
Qed.

(** X12. The lower-bound keys do not work alone. For a table entry that
    has [critical_low] and no [critical], a sample at or below the lower
    bound makes the check raise [KeyError] before the writer is called;
    the pass then ends without its commit, and the alarms table stays as
    it was, whatever the other samples of the pass would have written. *)
Theorem lower_bound_alone_raises (table : threshold_table) data th :
  table !! pd_metric_type data = Some th ->
  th !! "critical" = None ->
  le_float (pd_value data) (get_or th "critical_low" neg_infinity) = true ->
  (forall (St : Type) (writer : Writer St) db,
      check_sample writer table db data = None)
  /\ (forall p utcnow clock perf alarms,
        In data (recent_data utcnow perf) ->
        _check_thresholds p utcnow clock table perf alarms = alarms).
Proof.
  intros Hth Hc Hlow.
  assert (forall (St : Type) (writer : Writer St) db,
            check_sample writer table db data = None) as Hraise.
  { intros St writer db. unfold check_sample. rewrite Hth. simpl.
    rewrite Hlow, orb_true_r. by rewrite Hc. }
  split; [done |].
  intros p utcnow clock perf alarms Hin. unfold _check_thresholds.
  destruct (async_session p); [| done].
  by rewrite (check_loop_raises _ table _ data Hin (Hraise Session)).
Qed.

Lemma lower_bound_alone_raises_witness :
  check_sample recorder low_only_table [] weak_signal = None
  /\ _check_thresholds full_platform 500 (fun _ => 500) low_only_table
       [cpu_sample 97 0; weak_signal] [stored_alarm]
     = [stored_alarm].
Proof.
  destruct (lower_bound_alone_raises low_only_table weak_signal
              (<["critical_low" := (-30)%float]> ∅))
    as [Hraise Hpass]; [reflexivity | reflexivity | reflexivity |].
  split; [apply Hraise |].
  apply Hpass.
  change (recent_data 500 [cpu_sample 97 0; weak_signal])
    with [cpu_sample 97 0; weak_signal].
  right. by left.
Defined.

(** *** The steady state *)

Lemma create_threshold_alarm_found p utcnow db data sev tt value threshold db' :
  autoflush db = false ->
  (1 <= active_count data (rows db))%nat ->
  _create_threshold_alarm p utcnow db data sev tt value threshold = Some db' ->
  autoflush db' = false
  /\ pending db' = pending db
  /\ length (rows db') = length (rows db)
  /\ forall d, active_count d (rows db') = active_count d (rows db).
Proof.
  intros Hflush Hone Hw.
  assert (before_query db = db) as Hbq by (unfold before_query; by rewrite Hflush).
  destruct (create_threshold_alarm_cases _ _ _ _ _ _ _ _ _ Hw)
    as [(i & a & Hfind & ->) | (Hfind & ->)]; rewrite Hbq in *; simpl.
  - apply list_find_Some in Hfind as (Hi & Ha & _).
    split; [done |]. split; [done |]. split; [apply length_insert |].
    intros d. apply (active_count_insert d _ i a); [done |].
    apply updated_same.
  - apply list_find_None in Hfind.
    rewrite active_count_none in Hone by done. lia.
Qed.

Lemma check_loop_steady p clock (table : threshold_table) recent :
  forall i db,
    autoflush db = false ->
    Forall (fun d => (1 <= active_count d (rows db))%nat) recent ->
    match check_loop (fun i => _create_threshold_alarm p (clock i)) i table db
            recent with
    | Some db' =>
        pending db' = pending db
        /\ length (rows db') = length (rows db)
        /\ forall d, active_count d (rows db') = active_count d (rows db)
    | None => True
    end.
Proof.
  induction recent as [|data rest IH]; intros i db Hflush Hall; simpl; [done |].
  apply Forall_cons in Hall as [Hd Hall].
  destruct (check_sample (_create_threshold_alarm p (clock i)) table db data)
    as [db1|] eqn:Hstep; simpl; [| done].
  assert (autoflush db1 = false /\ pending db1 = pending db
          /\ length (rows db1) = length (rows db)
          /\ forall d, active_count d (rows db1) = active_count d (rows db))
    as (Hf1 & Hp1 & Hl1 & Hc1).
  { destruct (check_sample_cases _ _ _ _ _ Hstep)
      as [-> | (sev & tt & threshold & Hw)]; [done |].
    by eapply create_threshold_alarm_found. }
  specialize (IH (S i) db1 Hf1).
  destruct (check_loop _ (S i) table db1 rest) as [db'|]; [| done].
  destruct IH as (Hp & Hl & Hc).
  { eapply Forall_impl; [exact Hall |]. intros d Hd'. simpl in Hd'.
    by rewrite Hc1. }
  split; [congruence |]. split; [congruence |].
  intros d. by rewrite Hc, Hc1.
Qed.

(** X13. Once the table holds an ACTIVE alarm for the key of every recent
    sample, a pass adds nothing, on any platform: the table keeps its
    length and every key keeps its number of ACTIVE alarms, however many
    samples breach. *)
Theorem stored_alarms_absorb_breaches p utcnow clock (table : threshold_table)
    perf alarms :
  Forall (fun d => (1 <= active_count d alarms)%nat) (recent_data utcnow perf) ->
  let after := _check_thresholds p utcnow clock table perf alarms in
  length after = length alarms
  /\ forall d, active_count d after = active_count d alarms.
Proof.
  intros Hall. simpl. unfold _check_thresholds.
  destruct (async_session p); [| done].
  pose proof (check_loop_steady p clock table (recent_data utcnow perf) 0%nat
                (get_db_session alarms) eq_refl Hall) as Hloop.
  destruct (check_loop _ 0 table (get_db_session alarms) (recent_data utcnow perf))
    as [db|]; [| done].
  destruct Hloop as (Hp & Hl & Hc). simpl in *.
  unfold commit. rewrite Hp, app_nil_r. by split.
Qed.

Lemma stored_alarms_absorb_breaches_witness :
  let after := _check_thresholds full_platform 300000000
                 (fun i => 300000000 + Z.of_nat i) thresholds
                 [cpu_sample 96 0; cpu_sample 97 120000000; cpu_sample 85 240000000]
                 [stored_alarm] in
  length after = 1%nat
  /\ forall d, active_count d after = active_count d [stored_alarm].
Proof.
  apply (stored_alarms_absorb_breaches full_platform 300000000
           (fun i => 300000000 + Z.of_nat i) thresholds
           [cpu_sample 96 0; cpu_sample 97 120000000; cpu_sample 85 240000000]
           [stored_alarm]).
  change (recent_data 300000000
            [cpu_sample 96 0; cpu_sample 97 120000000; cpu_sample 85 240000000])
    with [cpu_sample 96 0; cpu_sample 97 120000000; cpu_sample 85 240000000].
  do 3 (constructor; [vm_compute; lia |]). constructor.
Defined.

(** *** The metric types that have thresholds *)

Lemma metric_value_thresholds m :
  m ∈ [CPU_USAGE; MEMORY_USAGE; TEMPERATURE]
  \/ thresholds !! metric_value m = None.
Proof.
  destruct m; (by right) || (left; apply (bool_decide_unpack _); vm_compute; exact I).
Qed.

(** X23. Of the six entries of the threshold table only three are the
    value of a member of [MetricType]: the entries [optical_power_rx],
    [optical_power_tx] and [ont_offline_ratio] are in the table and are the
    value of no member, so no stored sample selects them; and a sample of
    any member other than CPU_USAGE, MEMORY_USAGE and TEMPERATURE is not
    passed to the writer, whatever its value. *)
Theorem optical_entries_unreachable :
  (forall name, name ∈ ["optical_power_rx"; "optical_power_tx"; "ont_offline_ratio"]%string ->
      is_Some (thresholds !! name) /\ forall m, metric_value m <> name)
  /\ (forall m, is_Some (thresholds !! metric_value m) <->
                m ∈ [CPU_USAGE; MEMORY_USAGE; TEMPERATURE])
  /\ (forall (St : Type) (writer : Writer St) db data m,
      pd_metric_type data = metric_value m ->
      m ∉ [CPU_USAGE; MEMORY_USAGE; TEMPERATURE] ->
      check_sample writer thresholds db data = Some db).
Proof.
  split; [| split].
  - intros name Hin.
    repeat (apply elem_of_cons in Hin as [-> | Hin];
            [split; [by eexists | by intros []] |]).
    by apply elem_of_nil in Hin.
  - intros m. split.
    + intros [th Hth].
      destruct (metric_value_thresholds m) as [? | Hnone]; [done | congruence].
    + intros Hin.
      repeat (apply elem_of_cons in Hin as [-> | Hin]; [by eexists |]).
      by apply elem_of_nil in Hin.
  - intros St writer db data m Hm Hout. apply check_sample_absent. rewrite Hm.
    by destruct (metric_value_thresholds m).
Qed.

Lemma optical_entries_unreachable_witness :
  check_sample recorder thresholds []
    (mkData 9 "ont" (metric_value SIGNAL_STRENGTH) (-35) "dbm" 0)
  = Some [].
Proof.
  apply (proj2 (proj2 optical_entries_unreachable) (list Call) recorder []
           (mkData 9 "ont" (metric_value SIGNAL_STRENGTH) (-35) "dbm" 0)
           SIGNAL_STRENGTH eq_refl).
  apply (bool_decide_unpack _). vm_compute. exact I.
Defined.

End ThresholdFacts.

(** ** SNMP client and adapter *)

Module SnmpFacts.
Import Snmp Simulation.

(** *** Bulk GET *)

Lemma bulk_loop_other oids i vbs (results : gmap string snmp_value) k :
  (forall j, (j < length vbs)%nat -> oids !! (i + j)%nat <> Some k) ->
  bulk_loop oids i vbs results !! k = results !! k.
Proof.
  revert i results.
  induction vbs as [|vb vbs IH]; intros i results Hk; simpl; [done |].
  rewrite IH.
  - destruct (oids !! i) as [oid|] eqn:Hi; [| done].
    apply lookup_insert_ne. intros ->.
    apply (Hk 0%nat); [simpl; lia | by rewrite Nat.add_0_r].
  - intros j Hj. replace (S i + j)%nat with (i + S j)%nat by lia.
    apply Hk. simpl. lia.
Qed.

Lemma bulk_loop_lookup oids vbs :
  NoDup oids ->
  forall i (results : gmap string snmp_value) j oid vb,
    oids !! (i + j)%nat = Some oid -> vbs !! j = Some vb ->
    bulk_loop oids i vbs results !! oid = Some vb.2.
Proof.
  intros Hnd.
  induction vbs as [|vb0 vbs IH]; intros i results j oid vb Hoid Hvb; [done |].
  destruct j as [|j]; simpl in *.
  - injection Hvb as ->. rewrite Nat.add_0_r in Hoid. rewrite Hoid.
    rewrite bulk_loop_other; [apply lookup_insert_eq |].
    intros j _ Hj.
    pose proof (NoDup_lookup _ _ _ _ Hnd Hoid Hj). lia.
  - apply (IH (S i) _ j); [| done].
    by replace (S i + j)%nat with (i + S j)%nat by lia.
Qed.

(** A key that is set stays set: to the value bound at a later position of
    the key, or to the value it had. *)
Lemma bulk_loop_keeps oids vbs :
  forall i (results : gmap string snmp_value) k v,
    results !! k = Some v ->
    exists w, bulk_loop oids i vbs results !! k = Some w
      /\ (w = v \/ exists j vb, oids !! (i + j)%nat = Some k
                                /\ vbs !! j = Some vb /\ w = vb.2).
Proof.
  induction vbs as [|vb0 vbs IH]; intros i results k v Hk; simpl.
  { exists v. by split; [| left]. }
  destruct (decide (oids !! i = Some k)) as [Hi | Hi].
  - rewrite Hi.
    destruct (IH (S i) (<[k := vb0.2]> results) k vb0.2) as (w & Hw & Hfrom).
    { apply lookup_insert_eq. }
    exists w. split; [done |]. right.
    destruct Hfrom as [-> | (j & vb & Hj & Hvb & ->)].
    + exists 0%nat, vb0. by rewrite Nat.add_0_r.
    + exists (S j), vb. by replace (i + S j)%nat with (S i + j)%nat by lia.
  - destruct (IH (S i) (match oids !! i with
                        | Some oid => <[oid := vb0.2]> results
                        | None => results
                        end) k v) as (w & Hw & Hfrom).
    { destruct (oids !! i) as [oid|] eqn:Hoid; [| done].
      rewrite lookup_insert_ne; [done | congruence]. }
    exists w. split; [done |].
    destruct Hfrom as [-> | (j & vb & Hj & Hvb & ->)]; [by left | right].
    exists (S j), vb. by replace (i + S j)%nat with (S i + j)%nat by lia.
Qed.

(** Without the assumption that the OIDs are distinct: a requested OID
    that has a binding gets the value bound at one of its positions. *)
Lemma bulk_loop_assigns oids vbs :
  forall i (results : gmap string snmp_value) j oid,
    oids !! (i + j)%nat = Some oid -> (j < length vbs)%nat ->
    exists j' vb, oids !! (i + j')%nat = Some oid /\ vbs !! j' = Some vb
                  /\ bulk_loop oids i vbs results !! oid = Some vb.2.
Proof.
  induction vbs as [|vb0 vbs IH]; intros i results j oid Hoid Hj; simpl in *;
    [lia |].
  destruct j as [|j].
  - rewrite Nat.add_0_r in Hoid. rewrite Hoid.
    destruct (bulk_loop_keeps oids vbs (S i) (<[oid := vb0.2]> results) oid vb0.2)
      as (w & Hw & Hfrom).
    { apply lookup_insert_eq. }
    destruct Hfrom as [-> | (j' & vb & Hj' & Hvb & ->)].
    + exists 0%nat, vb0. by rewrite Nat.add_0_r.
    + exists (S j'), vb. by replace (i + S j')%nat with (S i + j')%nat by lia.
  - destruct (IH (S i) (match oids !! i with
                        | Some o => <[o := vb0.2]> results
                        | None => results
                        end) j oid) as (j' & vb & Hj' & Hvb & Hres).
    { by replace (S i + j)%nat with (i + S j)%nat by lia. }
    { lia. }
    exists (S j'), vb. by replace (i + S j')%nat with (S i + j')%nat by lia.
Qed.

Lemma get_bulk_error device oids ei es vbs :
  device oids = Reply ei es vbs -> is_Some ei \/ es <> 0 ->
  get_bulk device oids = ∅.
Proof.
  intros Hr Herr. unfold get_bulk. rewrite Hr.
  destruct (bool_decide (is_Some ei)) eqn:Hei; [done |].
  apply bool_decide_eq_false in Hei.
  destruct Herr as [? | Hes]; [done |].
  by rewrite bool_decide_eq_true_2.
Qed.

Lemma get_bulk_clean device oids vbs :
  device oids = Reply None 0 vbs ->
  get_bulk device oids = bulk_loop oids 0 vbs ∅.
Proof.
  intros Hr. unfold get_bulk. rewrite Hr.
  rewrite bool_decide_eq_false_2 by (by intros [? ?]).
  by rewrite bool_decide_eq_false_2 by (by intros ?).
Qed.

(** C5. When the response carries an error indication or a non-zero error
    status, [get_bulk] returns the empty dict. When it carries neither, and
    one variable binding for each of the [N] requested OIDs, the dict maps
    every requested OID to a value bound at a position of that OID, which
    is the value bound at its own position when the requested OIDs are
    distinct, and the dict holds no other key. *)
Theorem bulk_get_all_or_nothing :
  (forall device oids ei es vbs,
      device oids = Reply ei es vbs -> is_Some ei \/ es <> 0 ->
      get_bulk device oids = ∅)
  /\ (forall device oids vbs,
      device oids = Reply None 0 vbs -> length vbs = length oids ->
      (forall i oid, oids !! i = Some oid ->
         exists j vb, oids !! j = Some oid /\ vbs !! j = Some vb
                      /\ get_bulk device oids !! oid = Some vb.2)
      /\ (NoDup oids ->
          forall i oid, oids !! i = Some oid ->
            exists vb, vbs !! i = Some vb /\ get_bulk device oids !! oid = Some vb.2)
      /\ (forall k, ~ In k oids -> get_bulk device oids !! k = None)).
Proof.
  split; [apply get_bulk_error |].
  intros device oids vbs Hr Hlen.
  rewrite (get_bulk_clean device oids vbs Hr). split; [| split].
  - intros i oid Hi.
    apply (bulk_loop_assigns oids vbs 0%nat ∅ i oid Hi).
    rewrite Hlen. by eapply lookup_lt_Some.
  - intros Hnd i oid Hi.
    destruct (lookup_lt_is_Some_2 vbs i) as [vb Hvb].
    { rewrite Hlen. by eapply lookup_lt_Some. }
    exists vb. split; [done |].
    by apply (bulk_loop_lookup oids vbs Hnd 0%nat ∅ i).
  - intros k Hk. rewrite bulk_loop_other; [done |].
    intros j _ Hj. apply Hk.
    apply list_elem_of_In, list_elem_of_lookup. by exists j.
Qed.

Lemma bulk_get_all_or_nothing_witness :
  get_bulk (table_device (take 4 five_objects)) five_objects.*1 = ∅
  /\ (exists vb, (five_objects !! 3%nat) = Some vb
        /\ get_bulk (table_device five_objects) five_objects.*1
             !! "1.3.6.1.4.1.3902.1012.3.1.2.1.1.2"%string = Some vb.2)
  /\ get_bulk (table_device five_objects) five_objects.*1 !! "1.3.6.1.2.1.1.4.0"%string
     = None.
Proof.
  destruct bulk_get_all_or_nothing as (Herr & Hok).
  split.
  { apply (Herr (table_device (take 4 five_objects)) five_objects.*1 None 2 []);
      [reflexivity | right; discriminate]. }
  destruct (Hok (table_device five_objects) five_objects.*1 five_objects)
    as (_ & Hall & Honly); [reflexivity | reflexivity |].
  split.
  - apply (Hall ltac:(apply (bool_decide_unpack _); vm_compute; exact I) 3%nat).
    reflexivity.
  - apply Honly. vm_compute. intuition discriminate.
Defined.

(** *** Single GET *)

Lemma get_single device o : get device o = get_bulk device [o] !! o.
Proof.
  unfold get, get_bulk. destruct (device [o]) as [|ei es vbs]; [done |].
  destruct (bool_decide (is_Some ei)); [done |].
  destruct (bool_decide (es <> 0)); [done |].
  destruct vbs as [|vb vbs]; [done |]. simpl.
  rewrite bulk_loop_other; [by rewrite lookup_insert_eq |].
  intros j _. simpl. by rewrite lookup_nil.
Qed.

(** X16. A single GET is the bulk GET of the one OID: [get] returns the
    value that [get_bulk] of the singleton list holds under the OID, and
    [None] when that dict is empty; so the liveness probe succeeds exactly
    when the bulk GET of the system name is not empty. *)
Theorem get_is_singleton_bulk device oid :
  get device oid = get_bulk device [oid] !! oid
  /\ (get device oid = None <-> get_bulk device [oid] = ∅)
  /\ (test_connection device = true <-> get_bulk device [OID_SYSTEM_NAME] <> ∅).
Proof.
  assert (forall o, get device o = get_bulk device [o] !! o) as Hget
    by (intros o; apply get_single).
  assert (forall o, get device o = None <-> get_bulk device [o] = ∅) as Hnone.
  { intros o. rewrite Hget. split; [| by intros ->].
    intros Hnone. apply map_eq. intros k. rewrite lookup_empty.
    destruct (decide (k = o)) as [-> | Hne]; [done |].
    unfold get_bulk. destruct (device [o]) as [|ei es vbs]; [done |].
    destruct (bool_decide (is_Some ei)); [done |].
    destruct (bool_decide (es <> 0)); [done |].
    rewrite bulk_loop_other; [done |].
    intros [|j] _; simpl; [congruence | by rewrite lookup_nil]. }
  split; [apply Hget |]. split; [apply Hnone |].
  unfold test_connection. rewrite bool_decide_eq_true, <- Hnone.
  rewrite <- not_eq_None_Some. done.
Qed.

(** *** Walk *)

#[local] Set Warnings "-clear-no-such-hyp".

Lemma dict_set_keys k v d :
  (dict_set k v d).*1 = if decide (k ∈ d.*1) then d.*1 else d.*1 ++ [k].
Proof.
  induction d as [|[k' v'] d IH]; [done |].
  cbn [dict_set]. destruct (decide (k' = k)) as [-> | Hne].
  - rewrite !fmap_cons. cbn [fst]. rewrite decide_True by set_solver. done.
  - rewrite !fmap_cons. cbn [fst]. rewrite IH. destruct (decide (k ∈ d.*1)).
    + rewrite decide_True by set_solver. done.
    + rewrite decide_False by set_solver. done.
Qed.

Lemma dict_set_NoDup k v d : NoDup d.*1 -> NoDup (dict_set k v d).*1.
Proof.
  intros Hnd. rewrite dict_set_keys. case_decide; [done |].
  apply NoDup_app. split; [done |]. split; [set_solver |].
  apply NoDup_singleton.
Qed.

Lemma dict_set_elem k v d kv :
  kv ∈ dict_set k v d -> kv = (k, v) \/ kv ∈ d.
Proof.
  induction d as [|[k' v'] d IH]; simpl.
  - set_solver.
  - destruct (decide (k' = k)) as [-> | Hne]; set_solver.
Qed.

Lemma store_step_NoDup vbs results :
  NoDup results.*1 ->
  NoDup (foldl (fun r vb => dict_set vb.1 vb.2 r) results vbs).*1.
Proof.
  revert results. induction vbs as [|vb vbs IH]; intros results Hnd; simpl;
    [done |].
  by apply IH, dict_set_NoDup.
Qed.

Lemma store_step_elem vbs results kv :
  kv ∈ foldl (fun r vb => dict_set vb.1 vb.2 r) results vbs ->
  kv ∈ vbs \/ kv ∈ results.
Proof.
  revert results. induction vbs as [|vb vbs IH]; intros results; simpl;
    [auto |].
  intros Hin. destruct (IH _ Hin) as [? | Hin']; [set_solver |].
  destruct (dict_set_elem _ _ _ _ Hin') as [-> | ?]; [| auto].
  left. destruct vb. set_solver.
Qed.

Lemma walk_loop_NoDup steps results :
  NoDup results.*1 -> NoDup (walk_loop steps results).*1.
Proof.
  revert results. induction steps as [|step steps IH]; intros results Hnd;
    simpl; [done |].
  repeat case_bool_decide; try done.
  by apply IH, store_step_NoDup.
Qed.

Lemma walk_loop_elem steps results kv :
  kv ∈ walk_loop steps results ->
  kv ∈ results \/ exists step, step ∈ steps /\ kv ∈ w_var_binds step.
Proof.
  revert results. induction steps as [|step steps IH]; intros results; simpl;
    [auto |].
  repeat case_bool_decide; auto.
  intros Hin. destruct (IH _ Hin) as [Hin' | (st & Hst & Hkv)].
  - destruct (store_step_elem _ _ _ Hin') as [? | ?]; [| auto].
    right. exists step. set_solver.
  - right. exists st. set_solver.
Qed.

Lemma walk_loop_stops good bad rest results :
  Forall (fun step => step_ok step = true) good ->
  step_ok bad = false ->
  walk_loop (good ++ bad :: rest) results = walk_loop good results.
Proof.
  intros Hgood Hbad. revert results.
  induction Hgood as [|step good Hstep _ IH]; intros results; simpl.
  - unfold step_ok in Hbad. repeat case_bool_decide; done.
  - unfold step_ok in Hstep. repeat case_bool_decide; by try apply IH.
Qed.

Lemma walk_loop_fold steps results :
  walk_loop steps results
  = foldl (fun r vb => dict_set vb.1 vb.2 r) results
      (bindings_of (error_free_prefix steps)).
Proof.
  revert results. induction steps as [|step steps IH]; intros results; [done |].
  cbn [walk_loop error_free_prefix]. unfold step_ok.
  destruct (bool_decide (is_Some (w_error_indication step))); [done |].
  destruct (bool_decide (w_error_status step <> 0)); [done |].
  cbn [negb andb]. unfold bindings_of. rewrite fmap_cons. cbn [concat].
  rewrite foldl_app. apply IH.
Qed.

Lemma dict_set_map k v d :
  (list_to_map (dict_set k v d) : gmap string snmp_value)
  = <[k := v]> (list_to_map d).
Proof.
  induction d as [|[k' v'] d IH]; [done |].
  cbn [dict_set]. destruct (decide (k' = k)) as [-> | Hne].
  - rewrite !list_to_map_cons. by rewrite insert_insert_eq.
  - rewrite !list_to_map_cons, IH. by apply insert_insert_ne.
Qed.

Lemma store_fold_map vbs results :
  (list_to_map (foldl (fun r vb => dict_set vb.1 vb.2 r) results vbs)
     : gmap string snmp_value)
  = foldl (fun m vb => <[vb.1 := vb.2]> m) (list_to_map results) vbs.
Proof.
  revert results. induction vbs as [|vb vbs IH]; intros results; [done |].
  simpl. by rewrite IH, dict_set_map.
Qed.

Lemma store_fold_keys vbs results :
  (foldl (fun r vb => dict_set vb.1 vb.2 r) results vbs).*1
  = foldl (fun acc k => if decide (k ∈ acc) then acc else acc ++ [k])
      results.*1 vbs.*1.
Proof.
  revert results. induction vbs as [|vb vbs IH]; intros results; [done |].
  rewrite fmap_cons. simpl. by rewrite IH, dict_set_keys.
Qed.

(** X17. A walk is best effort. It stops at the first item that carries an
    error and returns what the items before it gave, however many items
    would follow; each OID occurs once in the result; and every entry of
    the result is a binding that the device sent. What it returns is the
    dict of the assignments [results[oid] = value] for the bindings of the
    items before the first error, in the order they were sent: each OID
    with the last value bound to it, at the place of its first binding. *)
Theorem walk_is_best_effort (next : NextCmd) oid :
  NoDup (walk next oid).*1
  /\ (forall kv, kv ∈ walk next oid ->
        exists step, step ∈ next oid /\ kv ∈ w_var_binds step)
  /\ (forall good bad rest,
        next oid = good ++ bad :: rest ->
        Forall (fun step => step_ok step = true) good ->
        step_ok bad = false ->
        walk next oid = walk (fun _ => good) oid)
  /\ (list_to_map (walk next oid) : gmap string snmp_value)
     = foldl (fun m vb => <[vb.1 := vb.2]> m) ∅
         (bindings_of (error_free_prefix (next oid)))
  /\ (walk next oid).*1
     = insertion_order (bindings_of (error_free_prefix (next oid))).*1.
Proof.
  unfold walk. split; [| split; [| split; [| split]]].
  - apply walk_loop_NoDup. constructor.
  - intros kv Hin. destruct (walk_loop_elem _ _ _ Hin) as [? | ?]; [| done].
    set_solver.
  - intros good bad rest -> Hgood Hbad. by apply walk_loop_stops.
  - by rewrite walk_loop_fold, store_fold_map.
  - by rewrite walk_loop_fold, store_fold_keys.
Qed.

Lemma walk_is_best_effort_witness :
  walk (fun _ => [ mkStep None 0 [("1.1", VInt 1)];
                   mkStep (Some "timeout") 0 [];
                   mkStep None 0 [("1.2", VInt 2)] ]) "1"
  = walk (fun _ => [ mkStep None 0 [("1.1", VInt 1)] ]) "1".
Proof.
  apply (proj1 (proj2 (proj2 (walk_is_best_effort
           (fun _ => [ mkStep None 0 [("1.1"%string, VInt 1)];
                       mkStep (Some "timeout"%string) 0 [];
                       mkStep None 0 [("1.2"%string, VInt 2)] ]) "1")))
           [ mkStep None 0 [("1.1"%string, VInt 1)] ]
           (mkStep (Some "timeout"%string) 0 [])
           [ mkStep None 0 [("1.2"%string, VInt 2)] ]).
  - reflexivity.
  - by constructor.
  - reflexivity.
Defined.

(** *** The OID lists of the adapter *)

Lemma append_length a b :
  String.length (String.append a b) = (String.length a + String.length b)%nat.
Proof. induction a as [|c a IH]; simpl; [done | by rewrite IH]. Qed.

Lemma append_cancel_r s a b : String.append a s = String.append b s -> a = b.
Proof.
  revert b. induction a as [|c a IH]; intros [|c' b] Heq.
  - done.
  - apply (f_equal String.length) in Heq.
    rewrite !append_length in Heq. simpl in Heq. lia.
  - apply (f_equal String.length) in Heq.
    rewrite !append_length in Heq. simpl in Heq. lia.
  - injection Heq as -> Heq. f_equal. by apply IH.
Qed.

Lemma dotted_inj index : Inj (=) (=) (fun oid => dotted oid index).
Proof. intros a b Heq. by apply (append_cancel_r (String.append "." index)). Qed.

(** The OIDs of one fetch are distinct, whatever the index. *)
Lemma ont_oids_NoDup index : NoDup (ont_oids index).
Proof.
  change (ont_oids index)
    with ((fun oid => dotted oid index) <$>
          [ OID_ONT_STATUS; OID_ONT_DISTANCE; OID_ONT_RX_POWER; OID_ONT_TX_POWER;
            OID_ONT_VOLTAGE; OID_ONT_TEMPERATURE; OID_ONT_SERIAL; OID_ONT_FIRMWARE;
            OID_ONT_HARDWARE; OID_ONT_MAC; OID_ONT_UPTIME; OID_ONT_RX_BYTES;
            OID_ONT_TX_BYTES; OID_ONT_RX_PACKETS; OID_ONT_TX_PACKETS ]).
  apply (NoDup_fmap_2 _ _ (Inj0 := dotted_inj index)).
  apply (bool_decide_unpack _). vm_compute. exact I.
Qed.

Lemma port_oids_NoDup index : NoDup (port_oids index).
Proof.
  change (port_oids index)
    with ((fun oid => dotted oid index) <$>
          [ OID_PORT_ADMIN_STATUS; OID_PORT_OPER_STATUS; OID_PORT_ONT_COUNT;
            OID_PORT_MAX_ONT; OID_PORT_OPTICAL_TX; OID_PORT_OPTICAL_RX;
            OID_PORT_TEMPERATURE; OID_PORT_VOLTAGE; OID_PORT_BIAS_CURRENT;
            OID_PORT_RX_BYTES; OID_PORT_TX_BYTES; OID_PORT_RX_PACKETS;
            OID_PORT_TX_PACKETS; OID_PORT_RX_ERRORS; OID_PORT_TX_ERRORS ]).
  apply (NoDup_fmap_2 _ _ (Inj0 := dotted_inj index)).
  apply (bool_decide_unpack _). vm_compute. exact I.
Qed.

(** An error-free reply to the fetch of an ONT with its fifteen bindings
    puts the value bound third, that of the rx-power OID, under that OID. *)
Lemma ont_rx_power_binding device index vbs vb :
  device (ont_oids index) = Reply None 0 vbs ->
  length vbs = 15%nat ->
  vbs !! 2%nat = Some vb ->
  get_bulk device (ont_oids index) !! dotted OID_ONT_RX_POWER index = Some vb.2.
Proof.
  intros Hr Hlen Hvb. rewrite (get_bulk_clean device _ vbs Hr).
  by apply (bulk_loop_lookup (ont_oids index) vbs (ont_oids_NoDup index)
              0%nat ∅ 2%nat).
Qed.

(** *** Integers printed and parsed

    The index of an OID is built with an f-string and read back with
    [int(oid.split('.')[-1])]. *)

Lemma append_nil_l s : String.append "" s = s.
Proof. done. Qed.

Lemma append_cons c a b : String.append (String c a) b = String c (String.append a b).
Proof. done. Qed.

Lemma append_nil_r s : String.append s "" = s.
Proof. induction s as [|c s IH]; [done |]. by rewrite append_cons, IH. Qed.

Lemma rev_app_rev_app s t u :
  String.rev_app (String.rev_app s t) u = String.rev_app t (String.append s u).
Proof.
  revert t u. induction s as [|c s IH]; intros t u; [done |].
  simpl. rewrite IH. by rewrite append_cons.
Qed.

Lemma rev_involutive s : String.rev (String.rev s) = s.
Proof. unfold String.rev. rewrite rev_app_rev_app. simpl. apply append_nil_r. Qed.

Lemma string_forall_rev_app P s t :
  string_forall P (String.rev_app s t) = string_forall P s && string_forall P t.
Proof.
  revert t. induction s as [|c s IH]; intros t; [done |].
  simpl. rewrite IH. simpl. by destruct (P c), (string_forall P s), (string_forall P t).
Qed.

Lemma lstrip_plain s : string_forall plain s = true -> lstrip s = s.
Proof.
  destruct s as [|c s]; [done |]. simpl. unfold plain.
  intros H. apply andb_true_iff in H as [H _]. apply andb_true_iff in H as [H _].
  by destruct (is_space c).
Qed.

Lemma strip_plain s : string_forall plain s = true -> strip s = s.
Proof.
  intros Hs. unfold strip. rewrite (lstrip_plain s Hs).
  rewrite lstrip_plain; [apply rev_involutive |].
  unfold String.rev. rewrite string_forall_rev_app, Hs. done.
Qed.

Lemma split_on_plain s : string_forall plain s = true -> split_on "." s = [s].
Proof.
  induction s as [|c s IH]; [done |]. simpl. unfold plain at 1.
  intros H. apply andb_true_iff in H as [Hc Hs].
  apply andb_true_iff in Hc as [_ Hc].
  destruct (Ascii.eqb c "."); [done |]. by rewrite IH.
Qed.

Lemma split_on_nonempty sep s : split_on sep s <> [].
Proof.
  induction s as [|c s IH]; [done |]. simpl.
  destruct (Ascii.eqb c sep); [done |]. by destruct (split_on sep s).
Qed.

Lemma split_on_app sep a b :
  split_on sep (String.append a (String sep b)) = split_on sep a ++ split_on sep b.
Proof.
  induction a as [|c a IH].
  - rewrite append_nil_l. simpl. by rewrite Ascii.eqb_refl.
  - rewrite append_cons. simpl. destruct (Ascii.eqb c sep).
    + by rewrite IH.
    + rewrite IH. pose proof (split_on_nonempty sep a).
      by destruct (split_on sep a).
Qed.

Lemma pretty_N_char_digit n :
  (n < 10)%N -> digit_of (pretty_N_char n) = Some (Z.of_N n).
Proof.
  rewrite <- (N2Nat.id n). generalize (N.to_nat n) as m. intros m Hm.
  do 10 (destruct m as [|m]; [reflexivity |]). lia.
Qed.

Lemma pretty_N_char_plain n : plain (pretty_N_char n) = true.
Proof. unfold pretty_N_char. by repeat case_match. Qed.

Lemma pretty_N_go_plain x :
  forall s, string_forall plain s = true ->
            string_forall plain (pretty_N_go x s) = true.
Proof.
  induction (N.lt_wf_0 x) as [x _ IH]; intros s Hs.
  destruct (N.eq_0_gt_0_cases x) as [-> | Hx]; [done |].
  rewrite pretty_N_go_step by done. apply IH; [by apply N.div_lt |].
  simpl. by rewrite pretty_N_char_plain.
Qed.

Lemma digits_pretty_N_go x :
  forall s after_digit,
    (0 < x)%N ->
    digits (pretty_N_go x s) 0 after_digit = digits s (Z.of_N x) true.
Proof.
  induction (N.lt_wf_0 x) as [x _ IH]; intros s af Hx.
  rewrite pretty_N_go_step by done.
  destruct (N.eq_0_gt_0_cases (x `div` 10)%N) as [Hq | Hq].
  - rewrite Hq, pretty_N_go_0. simpl.
    rewrite pretty_N_char_digit by (by apply N.mod_lt).
    f_equal. pose proof (N.div_mod x 10). lia.
  - rewrite IH by (done || by apply N.div_lt). simpl.
    rewrite pretty_N_char_digit by (by apply N.mod_lt).
    f_equal. pose proof (N.div_mod x 10). lia.
Qed.

Lemma pretty_N_go_head x :
  forall s, (0 < x)%N ->
    exists c rest, pretty_N_go x s = String c rest /\ is_Some (digit_of c).
Proof.
  induction (N.lt_wf_0 x) as [x _ IH]; intros s Hx.
  rewrite pretty_N_go_step by done.
  destruct (N.eq_0_gt_0_cases (x `div` 10)%N) as [Hq | Hq].
  - rewrite Hq, pretty_N_go_0. eexists _, _. split; [done |].
    rewrite pretty_N_char_digit by (by apply N.mod_lt). eauto.
  - apply IH; [by apply N.div_lt | done].
Qed.

Lemma unsigned_int c rest :
  is_Some (digit_of c) ->
  string_forall plain (String c rest) = true ->
  int_of_string (String c rest) = digits (String c rest) 0 false.
Proof.
  intros Hd Hp. unfold int_of_string. rewrite strip_plain by done.
  destruct c as [[] [] [] [] [] [] [] []]; try done; by destruct Hd.
Qed.

Lemma int_of_string_pretty_pos p :
  int_of_string (pretty (Npos p)) = Some (Zpos p)
  /\ string_forall plain (pretty (Npos p)) = true.
Proof.
  unfold pretty, pretty_N. rewrite decide_False by done.
  assert (string_forall plain (pretty_N_go (N.pos p) "") = true) as Hp.
  { by apply pretty_N_go_plain. }
  split; [| done].
  destruct (pretty_N_go_head (N.pos p) "") as (c & rest & Heq & Hd); [lia |].
  rewrite Heq in Hp |- *. rewrite unsigned_int by done.
  rewrite <- Heq. by rewrite digits_pretty_N_go by lia.
Qed.

Lemma pretty_Z_plain (z : Z) : string_forall plain (pretty z) = true.
Proof.
  destruct z as [|p|p]; [done | apply int_of_string_pretty_pos |].
  change (pretty (Z.neg p)) with (String "-" (pretty (N.pos p))).
  simpl. apply int_of_string_pretty_pos.
Qed.

Lemma int_of_string_pretty (z : Z) : int_of_string (pretty z) = Some z.
Proof.
  destruct z as [|p|p]; [done | apply int_of_string_pretty_pos |].
  unfold int_of_string. rewrite strip_plain by apply pretty_Z_plain.
  change (pretty (Z.neg p)) with (String "-" (pretty (N.pos p))). cbv iota beta.
  destruct (int_of_string_pretty_pos p) as [Hint Hplain].
  unfold pretty, pretty_N in *. rewrite decide_False in * by done.
  rewrite digits_pretty_N_go by lia. done.
Qed.

Lemma dotted_cons a b : dotted a b = String.append a (String "." b).
Proof. done. Qed.

Lemma split_on_dotted prefix s :
  string_forall plain s = true ->
  split_on "." (dotted prefix s) = split_on "." prefix ++ [s].
Proof.
  intros Hs. by rewrite dotted_cons, split_on_app, (split_on_plain s Hs).
Qed.

Lemma ont_id_of_dotted prefix (id : Z) :
  ont_id_of (dotted prefix (pretty id)) = Some id.
Proof.
  unfold ont_id_of. rewrite split_on_dotted by apply pretty_Z_plain.
  rewrite last_snoc. simpl. apply int_of_string_pretty.
Qed.

Lemma port_index_of_dotted prefix (slot port : Z) :
  port_index_of (dotted prefix (dotted (pretty slot) (pretty port)))
  = Some (slot, port).
Proof.
  unfold port_index_of.
  assert (split_on "." (dotted prefix (dotted (pretty slot) (pretty port)))
          = (split_on "." prefix ++ [pretty slot]) ++ [pretty port]) as ->.
  { rewrite dotted_cons, split_on_app.
    rewrite (split_on_dotted (pretty slot)) by apply pretty_Z_plain.
    rewrite (split_on_plain (pretty slot)) by apply pretty_Z_plain.
    by rewrite app_assoc. }
  rewrite last_snoc, !length_app. cbn [length].
  replace (length (split_on "." prefix) + 1 + 1)%nat
    with (S (S (length (split_on "." prefix)))) by lia.
  cbn [Nat.leb Nat.sub].
  rewrite lookup_app_l by (rewrite length_app; simpl; lia).
  rewrite lookup_app_r by lia.
  rewrite Nat.sub_0_r, Nat.sub_diag. csimpl.
  by rewrite !int_of_string_pretty.
Qed.

(** *** Addressing *)

Lemma split_on_inj sep a : forall b, split_on sep a = split_on sep b -> a = b.
Proof.
  induction a as [|c a IH]; intros [|d b]; simpl; [done | | |].
  - pose proof (split_on_nonempty sep b).
    destruct (Ascii.eqb d sep), (split_on sep b); by try intros [=].
  - pose proof (split_on_nonempty sep a).
    destruct (Ascii.eqb c sep), (split_on sep a); by try intros [=].
  - pose proof (split_on_nonempty sep a) as Ha.
    pose proof (split_on_nonempty sep b) as Hb.
    destruct (Ascii.eqb_spec c sep) as [-> | Hc],
             (Ascii.eqb_spec d sep) as [-> | Hd].
    + intros [= Heq]. by rewrite (IH b Heq).
    + destruct (split_on sep b); by intros [=].
    + destruct (split_on sep a); by intros [=].
    + specialize (IH b).
      destruct (split_on sep a) as [|pa la], (split_on sep b) as [|pb lb];
        try done.
      intros [= -> -> ->]. by rewrite IH.
Qed.

Lemma pretty_Z_read (x y : Z) : pretty x = pretty y -> x = y.
Proof.
  intros Heq. pose proof (int_of_string_pretty x) as Hx.
  rewrite Heq, int_of_string_pretty in Hx. congruence.
Qed.

Lemma split_on_port_oid column (slot port : Z) :
  split_on "." (dotted column (dotted (pretty slot) (pretty port)))
  = split_on "." column ++ [pretty slot; pretty port].
Proof.
  rewrite dotted_cons, split_on_app.
  rewrite (split_on_dotted (pretty slot)) by apply pretty_Z_plain.
  by rewrite (split_on_plain (pretty slot)) by apply pretty_Z_plain.
Qed.

Lemma split_on_ont_oid column (slot port id : Z) :
  split_on "." (dotted column (dotted (pretty slot) (dotted (pretty port) (pretty id))))
  = split_on "." column ++ [pretty slot; pretty port; pretty id].
Proof.
  rewrite dotted_cons, split_on_app.
  rewrite (dotted_cons (pretty slot)), split_on_app.
  rewrite (split_on_plain (pretty slot)) by apply pretty_Z_plain.
  rewrite (split_on_dotted (pretty port)) by apply pretty_Z_plain.
  by rewrite (split_on_plain (pretty port)) by apply pretty_Z_plain.
Qed.

Lemma ont_oids_column index oid :
  oid ∈ ont_oids index ->
  exists column,
    oid = dotted column index /\ length (split_on "." column) = 14%nat.
Proof.
  unfold ont_oids. intros Hin.
  repeat (apply elem_of_cons in Hin as [-> | Hin];
          [eexists; split; [reflexivity | vm_compute; reflexivity] |]).
  by apply elem_of_nil in Hin.
Qed.

Lemma port_oids_column index oid :
  oid ∈ port_oids index ->
  exists column,
    oid = dotted column index /\ length (split_on "." column) = 13%nat.
Proof.
  unfold port_oids. intros Hin.
  repeat (apply elem_of_cons in Hin as [-> | Hin];
          [eexists; split; [reflexivity | vm_compute; reflexivity] |]).
  by apply elem_of_nil in Hin.
Qed.

(** X22. The OIDs of a fetch name their object: an OID that
    [get_ont_info] requests for one ONT is requested for no other ONT, an
    OID that [get_port_info] requests for one port is requested for no
    other port, and no OID is requested for both an ONT and a port. *)
Theorem addressing_is_unambiguous :
  (forall (slot port id slot' port' id' : Z) oid,
      oid ∈ ont_oids (dotted (pretty slot) (dotted (pretty port) (pretty id))) ->
      oid ∈ ont_oids (dotted (pretty slot') (dotted (pretty port') (pretty id'))) ->
      slot = slot' /\ port = port' /\ id = id')
  /\ (forall (slot port slot' port' : Z) oid,
      oid ∈ port_oids (dotted (pretty slot) (pretty port)) ->
      oid ∈ port_oids (dotted (pretty slot') (pretty port')) ->
      slot = slot' /\ port = port')
  /\ (forall (slot port id slot' port' : Z) oid,
      oid ∈ ont_oids (dotted (pretty slot) (dotted (pretty port) (pretty id))) ->
      oid ∉ port_oids (dotted (pretty slot') (pretty port'))).
Proof.
  split; [| split].
  - intros slot port id slot' port' id' oid H1 H2.
    apply ont_oids_column in H1 as (c1 & -> & Hl1).
    apply ont_oids_column in H2 as (c2 & Heq & Hl2).
    apply (f_equal (split_on ".")) in Heq. rewrite !split_on_ont_oid in Heq.
    apply app_inj_2 in Heq as [_ [= Hs Hp Hi]]; [| done].
    by rewrite (pretty_Z_read _ _ Hs), (pretty_Z_read _ _ Hp), (pretty_Z_read _ _ Hi).
  - intros slot port slot' port' oid H1 H2.
    apply port_oids_column in H1 as (c1 & -> & Hl1).
    apply port_oids_column in H2 as (c2 & Heq & Hl2).
    apply (f_equal (split_on ".")) in Heq. rewrite !split_on_port_oid in Heq.
    apply app_inj_2 in Heq as [_ [= Hs Hp]]; [| done].
    by rewrite (pretty_Z_read _ _ Hs), (pretty_Z_read _ _ Hp).
  - intros slot port id slot' port' oid H1 H2.
    apply ont_oids_column in H1 as (c1 & -> & Hl1).
    apply port_oids_column in H2 as (c2 & Heq & Hl2).
    apply (f_equal (fun s => length (split_on "." s))) in Heq.
    rewrite split_on_ont_oid, split_on_port_oid, !length_app, Hl1, Hl2 in Heq.
    simpl in Heq. lia.
Qed.

Lemma addressing_is_unambiguous_witness :
  dotted OID_ONT_RX_POWER (dotted (pretty 1) (dotted (pretty 2) (pretty 3)))
  ∉ port_oids (dotted (pretty 1) (pretty 2)).
Proof.
  apply (proj2 (proj2 addressing_is_unambiguous) 1 2 3 1 2).
  apply list_elem_of_lookup_2 with 2%nat. reflexivity.
Defined.

(** *** Decoding *)

Section Decoding.

Variable int_of_octets : string -> option Z.
Variable float_of_octets : string -> option float.

Lemma scaled_reading (data : gmap string snmp_value) key scale raw :
  data !! key = Some (VInt raw) ->
  scaled float_of_octets data key scale = Some (float_of_Z raw / scale)%float.
Proof. unfold scaled, get0. by intros ->. Qed.

Lemma get_ont_info_scaled device slot port id info :
  get_ont_info int_of_octets float_of_octets device slot port id = Some info ->
  let ont_index := dotted (pretty slot) (dotted (pretty port) (pretty id)) in
  let ont_data := get_bulk device (ont_oids ont_index) in
  scaled float_of_octets ont_data (dotted OID_ONT_RX_POWER ont_index) 100
    = Some (rx_power info)
  /\ scaled float_of_octets ont_data (dotted OID_ONT_TX_POWER ont_index) 100
    = Some (tx_power info)
  /\ scaled float_of_octets ont_data (dotted OID_ONT_VOLTAGE ont_index) 1000
    = Some (voltage info)
  /\ scaled float_of_octets ont_data (dotted OID_ONT_TEMPERATURE ont_index) 100
    = Some (temperature info).
Proof.
  unfold get_ont_info. simpl. intros Hinfo.
  case_decide; [done |].
  repeat match type of Hinfo with
         | ?o ≫= _ = Some _ => destruct o eqn:?; simpl in Hinfo; [| done]
         end.
  by injection Hinfo as <-.
Qed.

Lemma get_port_info_scaled device slot port info :
  get_port_info int_of_octets float_of_octets device slot port = Some info ->
  let port_index := dotted (pretty slot) (pretty port) in
  let port_data := get_bulk device (port_oids port_index) in
  scaled float_of_octets port_data (dotted OID_PORT_OPTICAL_TX port_index) 100
    = Some (p_optical_power_tx info)
  /\ scaled float_of_octets port_data (dotted OID_PORT_OPTICAL_RX port_index) 100
    = Some (p_optical_power_rx info)
  /\ scaled float_of_octets port_data (dotted OID_PORT_TEMPERATURE port_index) 100
    = Some (p_temperature info)
  /\ scaled float_of_octets port_data (dotted OID_PORT_VOLTAGE port_index) 1000
    = Some (p_voltage info)
  /\ scaled float_of_octets port_data (dotted OID_PORT_BIAS_CURRENT port_index) 1000
    = Some (p_bias_current info).
Proof.
  unfold get_port_info. simpl. intros Hinfo.
  case_decide; [done |].
  repeat match type of Hinfo with
         | ?o ≫= _ = Some _ => destruct o eqn:?; simpl in Hinfo; [| done]
         end.
  by injection Hinfo as <-.
Qed.

(** C9. The decoded optical powers of an ONT and of a port are the raw
    integer readings of their OIDs divided by 100, the decoded voltages and
    the bias current the raw readings divided by 1000; a raw reading of
    -2550 divided by 100 is exactly -25.5. *)
Theorem optical_power_scaling :
  (forall device slot port id info,
      get_ont_info int_of_octets float_of_octets device slot port id = Some info ->
      let ont_index := dotted (pretty slot) (dotted (pretty port) (pretty id)) in
      let ont_data := get_bulk device (ont_oids ont_index) in
      (forall raw, ont_data !! dotted OID_ONT_RX_POWER ont_index = Some (VInt raw) ->
         rx_power info = (float_of_Z raw / 100)%float)
      /\ (forall raw, ont_data !! dotted OID_ONT_TX_POWER ont_index = Some (VInt raw) ->
         tx_power info = (float_of_Z raw / 100)%float)
      /\ (forall raw, ont_data !! dotted OID_ONT_VOLTAGE ont_index = Some (VInt raw) ->
         voltage info = (float_of_Z raw / 1000)%float))
  /\ (forall device slot port info,
      get_port_info int_of_octets float_of_octets device slot port = Some info ->
      let port_index := dotted (pretty slot) (pretty port) in
      let port_data := get_bulk device (port_oids port_index) in
      (forall raw, port_data !! dotted OID_PORT_OPTICAL_TX port_index = Some (VInt raw) ->
         p_optical_power_tx info = (float_of_Z raw / 100)%float)
      /\ (forall raw, port_data !! dotted OID_PORT_OPTICAL_RX port_index = Some (VInt raw) ->
         p_optical_power_rx info = (float_of_Z raw / 100)%float)
      /\ (forall raw, port_data !! dotted OID_PORT_VOLTAGE port_index = Some (VInt raw) ->
         p_voltage info = (float_of_Z raw / 1000)%float)
      /\ (forall raw, port_data !! dotted OID_PORT_BIAS_CURRENT port_index = Some (VInt raw) ->
         p_bias_current info = (float_of_Z raw / 1000)%float))
  /\ (float_of_Z (-2550) / 100)%float = (-25.5)%float.
Proof.
  split.
  { intros device slot port id info Hinfo. simpl.
    destruct (get_ont_info_scaled device slot port id info Hinfo)
      as (Hrx & Htx & Hv & _).
    repeat split; intros raw Hraw;
      match goal with
      | H : scaled _ _ ?k _ = Some _ |- _ =>
          rewrite (scaled_reading _ k _ raw Hraw) in H; by injection H
      end. }
  split; [| reflexivity].
  intros device slot port info Hinfo. simpl.
  destruct (get_port_info_scaled device slot port info Hinfo)
    as (Htx & Hrx & _ & Hv & Hb).
  repeat split; intros raw Hraw;
    match goal with
    | H : scaled _ _ ?k _ = Some _ |- _ =>
        rewrite (scaled_reading _ k _ raw Hraw) in H; by injection H
    end.
Qed.

(** *** Discovery *)

Lemma discover_loop_omap device slot port items onts :
  discover_loop int_of_octets float_of_octets device slot port items onts
  = onts ++ omap (fetch int_of_octets float_of_octets device slot port) items.
Proof.
  revert onts.
  induction items as [|[oid value] items IH]; intros onts; simpl.
  - by rewrite app_nil_r.
  - unfold fetch at 1. simpl.
    destruct (ont_id_of oid) as [id|]; simpl; [| apply IH].
    destruct (get_ont_info _ _ _ _ _ _) as [info|]; [| apply IH].
    rewrite IH. by rewrite <- app_assoc.
Qed.

Lemma omap_all_some {A B} (f : A -> option B) (l : list A) :
  Forall (fun x => is_Some (f x)) l ->
  length (omap f l) = length l /\ Forall2 (fun x y => f x = Some y) l (omap f l).
Proof.
  induction 1 as [|x l [y Hy] _ [IHlen IH2]]; csimpl; [by split |].
  rewrite Hy. csimpl. split; [by f_equal | by constructor].
Qed.

(** C6. [discover_all_onts] returns, in the order of the walk, the record
    of every enumerated ONT whose detail fetch succeeds. When the fetch of
    one of the [N] enumerated ONTs returns [None] and the others succeed,
    the result holds the [N - 1] records of the others. *)
Theorem partial_discovery_isolation :
  forall device next slot port,
    let items :=
      walk next (dotted OID_ONT_STATUS (dotted (pretty slot) (pretty port))) in
    let result :=
      discover_all_onts int_of_octets float_of_octets device next slot port in
    result = omap (fetch int_of_octets float_of_octets device slot port) items
    /\ forall before failed after,
         items = before ++ failed :: after ->
         (exists id, ont_id_of failed.1 = Some id
            /\ get_ont_info int_of_octets float_of_octets device slot port id = None) ->
         Forall (fun item => is_Some (fetch int_of_octets float_of_octets device slot port item)) (before ++ after) ->
         length result = (length items - 1)%nat
         /\ Forall2 (fun item info => fetch int_of_octets float_of_octets device slot port item = Some info)
              (before ++ after) result.
Proof.
  intros device next slot port items result.
  assert (result = omap (fetch int_of_octets float_of_octets device slot port) items) as Hres.
  { subst result. unfold discover_all_onts. fold items.
    by rewrite discover_loop_omap. }
  split; [done |].
  intros before failed after Hitems (id & Hid & Hnone) Hothers.
  assert (fetch int_of_octets float_of_octets device slot port failed = None) as Hfailed.
  { unfold fetch. by rewrite Hid. }
  assert (result = omap (fetch int_of_octets float_of_octets device slot port) (before ++ after)) as ->.
  { rewrite Hres, Hitems, !omap_app. simpl. by rewrite Hfailed. }
  destruct (omap_all_some _ _ Hothers) as [Hlen H2].
  split; [| done].
  rewrite Hlen, Hitems, !length_app. simpl. lia.
Qed.

(** *** A device that does not answer *)

Lemma dead_get_bulk device oids : dead device -> get_bulk device oids = ∅.
Proof.
  intros Hdead. specialize (Hdead oids). unfold get_bulk.
  destruct (device oids) as [|ei es vbs]; [done |].
  destruct (bool_decide (is_Some ei)) eqn:Hei; [done |].
  apply bool_decide_eq_false in Hei.
  destruct Hdead as [? | Hes]; [done |]. by rewrite bool_decide_eq_true_2.
Qed.

Lemma discover_ports_loop_omap device items ports :
  discover_ports_loop int_of_octets float_of_octets device items ports
  = ports ++ omap (fetch_port int_of_octets float_of_octets device) items.
Proof.
  revert ports.
  induction items as [|[oid value] items IH]; intros ports; simpl.
  - by rewrite app_nil_r.
  - unfold fetch_port at 1. simpl.
    destruct (port_index_of oid) as [[slot port]|]; simpl; [| apply IH].
    destruct (get_port_info _ _ _ _ _) as [info|]; [| apply IH].
    rewrite IH. by rewrite <- app_assoc.
Qed.

Lemma omap_all_none {A B} (f : A -> option B) (l : list A) :
  (forall x, f x = None) -> omap f l = [].
Proof.
  intros Hf. induction l as [|x l IH]; [done |]. csimpl. by rewrite Hf.
Qed.

(** X18. On a device that answers no request, the fetch of a port and the
    fetch of an ONT return [None], the probe fails and the discoveries of
    ports and ONTs are empty whatever the walk enumerates; but
    [discover_olt], which does not test its bulk results, returns a record:
    empty strings, uptime 0 and 0.0 for the CPU, memory, temperature and
    power readings. *)
Theorem dead_device_is_discovered device :
  dead device ->
  (forall slot port,
      get_port_info int_of_octets float_of_octets device slot port = None)
  /\ (forall slot port id,
      get_ont_info int_of_octets float_of_octets device slot port id = None)
  /\ test_connection device = false
  /\ (forall next,
      discover_all_ports int_of_octets float_of_octets device next = [])
  /\ (forall next slot port,
      discover_all_onts int_of_octets float_of_octets device next slot port = [])
  /\ discover_olt int_of_octets float_of_octets device
     = Some (mkOLTInfo "" "" 0 "" "" "" "" 0 0 0 0 0).
Proof.
  intros Hdead.
  assert (forall slot port,
            get_port_info int_of_octets float_of_octets device slot port = None)
    as Hport.
  { intros slot port. unfold get_port_info. simpl.
    rewrite dead_get_bulk by done. by rewrite decide_True. }
  assert (forall slot port id,
            get_ont_info int_of_octets float_of_octets device slot port id = None)
    as Hont.
  { intros slot port id. unfold get_ont_info. simpl.
    rewrite dead_get_bulk by done. by rewrite decide_True. }
  split; [done |]. split; [done |].
  split.
  { unfold test_connection. apply bool_decide_eq_false.
    rewrite get_single.
    rewrite dead_get_bulk by done. by intros [? ?]. }
  split.
  { intros next. unfold discover_all_ports. rewrite discover_ports_loop_omap.
    simpl. apply omap_all_none. intros item. unfold fetch_port.
    destruct (port_index_of item.1) as [[slot port]|]; simpl; [apply Hport | done]. }
  split.
  { intros next slot port. unfold discover_all_onts. rewrite discover_loop_omap.
    simpl. apply omap_all_none. intros item. unfold fetch.
    destruct (ont_id_of item.1) as [id|]; simpl; [apply Hont | done]. }
  unfold discover_olt. by rewrite !dead_get_bulk by done.
Qed.

(** *** The reply to the fetch of an ONT, position by position *)

Lemma ont_binding device index vbs i oid vb :
  device (ont_oids index) = Reply None 0 vbs ->
  ont_oids index !! i = Some oid -> vbs !! i = Some vb ->
  get_bulk device (ont_oids index) !! oid = Some vb.2.
Proof.
  intros Hr Hoid Hvb. rewrite (get_bulk_clean device _ vbs Hr).
  by apply (bulk_loop_lookup (ont_oids index) vbs (ont_oids_NoDup index)
              0%nat ∅ i).
Qed.

(** X19. The values of an error-free reply to the fetch of an ONT are taken
    by position, not by the OID each binding is named with: whatever the
    names, a reply of fifteen bindings with integers at the numeric places
    decodes to the record that reads status, distance, rx power, tx power,
    voltage, temperature, serial, firmware, hardware, MAC, uptime and the
    four counters in that order, with the powers and the temperature
    divided by 100 and the voltage by 1000. *)
Theorem ont_reply_by_position device slot port id
    n0 n1 n2 n3 n4 n5 n6 n7 n8 n9 n10 n11 n12 n13 n14
    st dist rx tx volt temp serial fw hw mac up rxb txb rxp txp :
  device (ont_oids (dotted (pretty slot) (dotted (pretty port) (pretty id))))
  = Reply None 0
      [ (n0, VInt st); (n1, VInt dist); (n2, VInt rx); (n3, VInt tx);
        (n4, VInt volt); (n5, VInt temp); (n6, serial); (n7, fw); (n8, hw);
        (n9, mac); (n10, VInt up); (n11, VInt rxb); (n12, VInt txb);
        (n13, VInt rxp); (n14, VInt txp) ] ->
  get_ont_info int_of_octets float_of_octets device slot port id
  = Some (mkONTInfo id (to_str serial) (status_of st) dist
            (float_of_Z rx / 100) (float_of_Z tx / 100)
            (float_of_Z volt / 1000) (float_of_Z temp / 100)
            (to_str fw) (to_str hw) (to_str mac) up rxb txb rxp txp).
Proof.
  intros Hr. unfold get_ont_info. simpl.
  set (index := dotted (pretty slot) (dotted (pretty port) (pretty id))) in *.
  assert (forall i oid vb,
            ont_oids index !! i = Some oid ->
            [ (n0, VInt st); (n1, VInt dist); (n2, VInt rx); (n3, VInt tx);
              (n4, VInt volt); (n5, VInt temp); (n6, serial); (n7, fw); (n8, hw);
              (n9, mac); (n10, VInt up); (n11, VInt rxb); (n12, VInt txb);
              (n13, VInt rxp); (n14, VInt txp) ] !! i = Some vb ->
            get_bulk device (ont_oids index) !! oid = Some vb.2) as Hget.
  { intros i oid vb. by apply ont_binding. }
  rewrite decide_False.
  2:{ intros Hempty. pose proof (Hget 0%nat _ _ eq_refl eq_refl) as H0.
      rewrite Hempty in H0. done. }
  unfold scaled, get0, get_empty.
  rewrite (Hget 0%nat _ _ eq_refl eq_refl), (Hget 1%nat _ _ eq_refl eq_refl),
    (Hget 2%nat _ _ eq_refl eq_refl), (Hget 3%nat _ _ eq_refl eq_refl),
    (Hget 4%nat _ _ eq_refl eq_refl), (Hget 5%nat _ _ eq_refl eq_refl),
    (Hget 6%nat _ _ eq_refl eq_refl), (Hget 7%nat _ _ eq_refl eq_refl),
    (Hget 8%nat _ _ eq_refl eq_refl), (Hget 9%nat _ _ eq_refl eq_refl),
    (Hget 10%nat _ _ eq_refl eq_refl), (Hget 11%nat _ _ eq_refl eq_refl),
    (Hget 12%nat _ _ eq_refl eq_refl), (Hget 13%nat _ _ eq_refl eq_refl),
    (Hget 14%nat _ _ eq_refl eq_refl).
  reflexivity.
Qed.

(** *** The indexes of the discoveries *)

(** X20. The ONT discovery reads the id of an ONT back from the last part
    of the OID that the walk returned. When the walk of the status column
    of a port returns the entries of the ONTs [ids], each under the OID of
    the column followed by its id, [discover_all_onts] is the list of the
    records that [get_ont_info] returns for these ids, in that order,
    without those whose fetch returns [None]. *)
Theorem ont_ids_read_back device next slot port (entries : list (Z * snmp_value)) :
  walk next (dotted OID_ONT_STATUS (dotted (pretty slot) (pretty port)))
  = (fun e => (dotted (dotted OID_ONT_STATUS (dotted (pretty slot) (pretty port)))
                 (pretty e.1), e.2)) <$> entries ->
  discover_all_onts int_of_octets float_of_octets device next slot port
  = omap (fun e => get_ont_info int_of_octets float_of_octets device slot port e.1)
      entries.
Proof.
  intros Hwalk. unfold discover_all_onts. simpl. rewrite Hwalk.
  rewrite discover_loop_omap. simpl. clear Hwalk.
  induction entries as [|[id v] entries IH]; [done |].
  rewrite fmap_cons. csimpl. rewrite IH.
  unfold fetch at 1. simpl. by rewrite ont_id_of_dotted.
Qed.

(** X21. The port discovery reads slot and port back from the last two
    parts of the OID that the walk returned. When the walk of the admin
    status column returns the entries of the ports [slot/port], each under
    the OID of the column followed by slot and port, [discover_all_ports]
    is the list of the records that [get_port_info] returns for these
    ports, in that order, without those whose fetch returns [None]. *)
Theorem port_indexes_read_back device next (entries : list (Z * Z * snmp_value)) :
  walk next OID_PORT_ADMIN_STATUS
  = (fun e => (dotted OID_PORT_ADMIN_STATUS (dotted (pretty e.1.1) (pretty e.1.2)),
               e.2)) <$> entries ->
  discover_all_ports int_of_octets float_of_octets device next
  = omap (fun e => get_port_info int_of_octets float_of_octets device e.1.1 e.1.2)
      entries.
Proof.
  intros Hwalk. unfold discover_all_ports. simpl. rewrite Hwalk.
  rewrite discover_ports_loop_omap. simpl. clear Hwalk.
  induction entries as [|[[slot port] v] entries IH]; [done |].
  rewrite fmap_cons. csimpl. rewrite IH.
  unfold fetch_port at 1. simpl. by rewrite port_index_of_dotted.
Qed.

End Decoding.

Example olt_discovery :
  ont_id <$> discover_all_onts no_octets_int no_octets_float olt_device olt_walk 1 2
  = [1; 3]
  /\ rx_power <$> discover_all_onts no_octets_int no_octets_float olt_device olt_walk 1 2
     = [(-25.5)%float; (-19.5)%float].
Proof. vm_compute. done. Qed.

Lemma optical_power_scaling_witness :
  (exists info,
     get_ont_info no_octets_int no_octets_float olt_device 1 2 1 = Some info
     /\ rx_power info = (float_of_Z (-2550) / 100)%float
     /\ voltage info = (float_of_Z 3300 / 1000)%float)
  /\ (exists info,
     get_port_info no_octets_int no_octets_float olt_device 1 2 = Some info
     /\ p_optical_power_rx info = (float_of_Z (-1875) / 100)%float
     /\ p_bias_current info = (float_of_Z 12500 / 1000)%float)
  /\ (float_of_Z (-2550) / 100)%float = (-25.5)%float.
Proof.
  destruct (optical_power_scaling no_octets_int no_octets_float)
    as (Hont & Hport & Hexample).
  split; [| split; [| exact Hexample]].
  - destruct (get_ont_info no_octets_int no_octets_float olt_device 1 2 1)
      as [info|] eqn:Hinfo; [| vm_compute in Hinfo; discriminate].
    destruct (Hont olt_device 1 2 1 info Hinfo) as (Hrx & _ & Hv).
    exists info. split; [done |].
    split; [apply Hrx | apply Hv]; vm_compute; reflexivity.
  - destruct (get_port_info no_octets_int no_octets_float olt_device 1 2)
      as [info|] eqn:Hinfo; [| vm_compute in Hinfo; discriminate].
    destruct (Hport olt_device 1 2 info Hinfo) as (_ & Hrx & _ & Hb).
    exists info. split; [done |].
    split; [apply Hrx | apply Hb]; vm_compute; reflexivity.
Defined.

Lemma dead_device_is_discovered_witness :
  test_connection silent_device = false
  /\ discover_all_onts no_octets_int no_octets_float silent_device olt_walk 1 2 = []
  /\ discover_olt no_octets_int no_octets_float silent_device
     = Some (mkOLTInfo "" "" 0 "" "" "" "" 0 0 0 0 0).
Proof.
  destruct (dead_device_is_discovered no_octets_int no_octets_float silent_device)
    as (_ & _ & Hprobe & _ & Honts & Holt); [intros oids; exact I |].
  split; [exact Hprobe | split; [apply Honts | exact Holt]].
Defined.

Lemma ont_reply_by_position_witness :
  exists info,
    get_ont_info no_octets_int no_octets_float fixed_reply_device 1 2 7 = Some info
    /\ ont_id info = 7
    /\ serial_number info = "ZTEGC0FFEE01"%string
    /\ rx_power info = (float_of_Z (-2550) / 100)%float.
Proof.
  eexists. split.
  - apply (ont_reply_by_position no_octets_int no_octets_float
             fixed_reply_device 1 2 7
             "x" "x" "x" "x" "x" "x" "x" "x" "x" "x" "x" "x" "x" "x" "x").
    reflexivity.
  - repeat split.
Defined.

Lemma ont_ids_read_back_witness :
  discover_all_onts no_octets_int no_octets_float olt_device olt_walk 1 2
  = omap (fun e => get_ont_info no_octets_int no_octets_float olt_device 1 2 e.1)
      [(1, VInt 1); (2, VInt 2); (3, VInt 1)].
Proof.
  apply (ont_ids_read_back no_octets_int no_octets_float olt_device olt_walk 1 2
           [(1, VInt 1); (2, VInt 2); (3, VInt 1)]).
  vm_compute. reflexivity.
Defined.

Lemma port_indexes_read_back_witness :
  discover_all_ports no_octets_int no_octets_float olt_device port_walk
  = omap (fun e => get_port_info no_octets_int no_octets_float olt_device e.1.1 e.1.2)
      [(1, 2, VInt 1); (1, 3, VInt 1)].
Proof.
  apply (port_indexes_read_back no_octets_int no_octets_float olt_device port_walk
           [(1, 2, VInt 1); (1, 3, VInt 1)]).
  vm_compute. reflexivity.
Defined.

Lemma partial_discovery_isolation_witness :
  let result :=
    discover_all_onts no_octets_int no_octets_float olt_device olt_walk 1 2 in
  length result = 2%nat
  /\ Forall2 (fun item info =>
                fetch no_octets_int no_octets_float olt_device 1 2 item = Some info)
       [(dotted OID_ONT_STATUS "1.2.1", VInt 1); (dotted OID_ONT_STATUS "1.2.3", VInt 1)]
       result.
Proof.
  destruct (partial_discovery_isolation no_octets_int no_octets_float
              olt_device olt_walk 1 2) as [_ Hone].
  apply (Hone [(dotted OID_ONT_STATUS "1.2.1", VInt 1)]
              (dotted OID_ONT_STATUS "1.2.2", VInt 2)
              [(dotted OID_ONT_STATUS "1.2.3", VInt 1)]).
  - reflexivity.
  - exists 2. split; vm_compute; reflexivity.
  - repeat constructor; vm_compute; eexists; reflexivity.
Defined.

End SnmpFacts.
